(** * fb_ssd1306: the SSD1306 OLED framebuffer driver

    A shallow embedding of [fb_ssd1306.c] and the properties of its five
    driver callbacks: [init_display], [set_addr_win], [blank], [set_gamma]
    and [write_vmem].

    The C functions run against a [struct fbtft_par] and talk to the
    controller through a byte bus with a data/command line.  They are
    embedded as computations in a state-and-failure monad over [world]:
    the fields of [par] the driver touches, the arrays it reads and writes,
    and the log of everything put on the bus.  A computation yields [None]
    exactly where the C program would leave defined behaviour (an array
    access out of bounds). *)

From Stdlib Require Import ZArith Lia Bool.
From stdpp Require Import base option list gmap.

Local Open Scope Z_scope.

(** ** Machine integers *)

Definition u32 (z : Z) : Z := z mod 2 ^ 32.
Definition u8 (z : Z) : Z := Z.land z 0xFF.

(** ** The bus *)

Inductive phase := Command | Data.

(** What the driver did to the outside world, oldest first: a pulse on the
    reset line, or one bus transaction with the state of the D/C line, the
    bytes handed over and the code the transport returned. *)
Inductive event :=
  | ResetPulse
  | Xfer (ph : phase) (bytes : list Z) (rc : Z).

Definition phase_of_dc (dc : Z) : phase :=
  if dc =? 0 then Command else Data.

(** ** The driver's view of memory *)

(** [set_gamma] receives a [u32 *]: either the array embedded in [par]
    or an array owned by the caller. *)
Inductive u32_ptr :=
  | par_gamma_curves
  | heap_array (l : nat).

Record world := World {
  var_xres : Z;                  (* par->info->var.xres, u32 *)
  var_yres : Z;                  (* par->info->var.yres, u32 *)
  pdata_rotate : Z;              (* par->pdata->rotate, unsigned *)
  gamma_curves : list Z;         (* par->gamma.curves, u32[] *)
  screen_buffer : list Z;        (* par->info->screen_buffer as u16[] *)
  txbuf_buf : list Z;            (* par->txbuf.buf, u8[] *)
  gpio_dc : Z;                   (* level of the par->gpio.dc line *)
  heap : gmap nat (list Z);      (* u32 arrays owned by callers *)
  wire : list event;             (* everything done on the bus so far *)
  faults : list Z                (* return codes of the coming bus writes *)
}.

Definition with_gamma_curves (c : list Z) (w : world) : world :=
  World (var_xres w) (var_yres w) (pdata_rotate w) c (screen_buffer w)
        (txbuf_buf w) (gpio_dc w) (heap w) (wire w) (faults w).

Definition with_txbuf_buf (b : list Z) (w : world) : world :=
  World (var_xres w) (var_yres w) (pdata_rotate w) (gamma_curves w)
        (screen_buffer w) b (gpio_dc w) (heap w) (wire w) (faults w).

Definition with_gpio_dc (v : Z) (w : world) : world :=
  World (var_xres w) (var_yres w) (pdata_rotate w) (gamma_curves w)
        (screen_buffer w) (txbuf_buf w) v (heap w) (wire w) (faults w).

Definition with_heap (h : gmap nat (list Z)) (w : world) : world :=
  World (var_xres w) (var_yres w) (pdata_rotate w) (gamma_curves w)
        (screen_buffer w) (txbuf_buf w) (gpio_dc w) h (wire w) (faults w).

Definition with_bus (l : list event) (f : list Z) (w : world) : world :=
  World (var_xres w) (var_yres w) (pdata_rotate w) (gamma_curves w)
        (screen_buffer w) (txbuf_buf w) (gpio_dc w) (heap w) l f.

(** ** The monad *)

Definition M (A : Type) : Type := world → option (A * world).

Definition ret {A} (a : A) : M A := λ w, Some (a, w).

Definition bind {A B} (c : M A) (k : A → M B) : M B :=
  λ w, match c w with
       | Some (a, w') => k a w'
       | None => None
       end.

Definition undefined {A} : M A := λ _, None.

Definition gets {A} (f : world → A) : M A := λ w, Some (f w, w).

Definition modify (f : world → world) : M unit := λ w, Some (tt, f w).

Declare Scope drv_scope.
Delimit Scope drv_scope with drv.
Bind Scope drv_scope with M.

Notation "'let*' x := c 'in' k" := (bind c (λ x, k))
  (at level 10, x name, c at level 100, k at level 200) : drv_scope.
Notation "c ;; k" := (bind c (λ _, k))
  (at level 100, k at level 200, right associativity) : drv_scope.

Local Open Scope drv_scope.

(** A counted loop [for (i = start; ...; i++)] of [n] rounds that threads
    the local variables [a] of the enclosing function through its body. *)
Fixpoint for_loop {A} (n : nat) (i : Z) (body : Z → A → M A) (a : A) : M A :=
  match n with
  | O => ret a
  | S n' => let* a' := body i a in for_loop n' (i + 1) body a'
  end.

(** ** Array accesses *)

Definition load32 (p : u32_ptr) (i : nat) : M Z :=
  λ w, match p with
       | par_gamma_curves => (λ v, (v, w)) <$> gamma_curves w !! i
       | heap_array l => (λ v, (v, w)) <$> (heap w !! l) ≫= (.!! i)
       end.

Definition store32 (p : u32_ptr) (i : nat) (v : Z) : M unit :=
  λ w, match p with
       | par_gamma_curves =>
           if decide (i < length (gamma_curves w))%nat
           then Some (tt, with_gamma_curves (<[i:=v]> (gamma_curves w)) w)
           else None
       | heap_array l =>
           match heap w !! l with
           | Some a =>
               if decide (i < length a)%nat
               then Some (tt, with_heap (<[l:=<[i:=v]> a]> (heap w)) w)
               else None
           | None => None
           end
       end.

Definition load16 (i : Z) : M Z :=
  λ w, (λ v, (v, w)) <$> screen_buffer w !! Z.to_nat i.

Definition load8 (buf : nat) : M Z :=
  λ w, (λ v, (v, w)) <$> txbuf_buf w !! buf.

Definition store8 (buf : nat) (v : Z) : M unit :=
  λ w, if decide (buf < length (txbuf_buf w))%nat
       then Some (tt, with_txbuf_buf (<[buf:=v]> (txbuf_buf w)) w)
       else None.

(** ** Collaborators outside the file *)

(** [par->fbtftops.reset(par)]: pulses the reset line. *)
Definition fbtftops_reset : M unit :=
  modify (λ w, with_bus (wire w ++ [ResetPulse]) (faults w) w).

(** The lock around the lazy contrast default.  One thread of control is
    modelled, for which taking and releasing the lock changes nothing. *)
Definition mutex_lock : M unit := ret tt.
Definition mutex_unlock : M unit := ret tt.

Definition gpio_set_value_dc (v : Z) : M unit := modify (with_gpio_dc v).

Definition dev_err : M unit := ret tt.

(** Modelled from the spec: the Bus Transport, [send(bytes, phase) ->
    Result<(), BusError>], whose code is not part of this file.  One call
    is one transaction in the phase the D/C line selects; it returns 0, or
    the negative error code of a transport failure.  The outcome of each
    coming transaction is read off [faults]; a bus nobody disturbs has
    [faults = []] and every transaction succeeds. *)
Definition bus_send (bytes : list Z) : M Z :=
  λ w, let rc := hd 0 (faults w) in
       Some (rc, with_bus (wire w ++ [Xfer (phase_of_dc (gpio_dc w)) bytes rc])
                          (tl (faults w)) w).

(** [par->fbtftops.write(par, par->txbuf.buf, len)]: sends the first [len]
    bytes of the transmit buffer. *)
Definition fbtftops_write (len : Z) : M Z :=
  let* b := gets txbuf_buf in
  if decide (0 ≤ len ≤ Z.of_nat (length b))
  then bus_send (take (Z.to_nat len) b)
  else undefined.

(** Modelled from the spec: the [write_reg(par, v)] macro of [fbtft.h],
    used here with one value at a time.  It sends [v] as a transaction of
    its own with D/C low (see the caveat at the head of the C file).  Every
    call in the driver is a statement of its own, so whatever the transport
    returns is dropped. *)
Definition write_reg (v : Z) : M unit :=
  gpio_set_value_dc 0 ;;
  let* _ := bus_send [v] in
  ret tt.

(** ** The driver *)

(** Init sequence taken from the Adafruit SSD1306 Arduino library. *)
Definition init_display : M Z :=
  fbtftops_reset ;;
  let* c0 := load32 par_gamma_curves 0 in
  (if c0 =? 0 then
     mutex_lock ;;
     let* yres := gets var_yres in
     (if yres =? 64
      then store32 par_gamma_curves 0 0xCF
      else store32 par_gamma_curves 0 0x8F) ;;
     mutex_unlock
   else ret tt) ;;
  (* Set Display OFF *)
  write_reg 0xAE ;;
  (* Set Display Clock Divide Ratio / Oscillator Frequency *)
  write_reg 0xD5 ;;
  write_reg 0x80 ;;
  (* Set Multiplex Ratio (number of rows) *)
  write_reg 0xA8 ;;
  let* yres := gets var_yres in
  write_reg (u32 (yres - 1)) ;;
  (* Set Display Offset *)
  write_reg 0xD3 ;;
  write_reg 0x0 ;;
  (* Set Display Start Line *)
  write_reg (Z.lor 0x40 0x0) ;;
  (* Charge Pump Setting *)
  write_reg 0x8D ;;
  write_reg 0x14 ;;
  (* Set Segment Re-map *)
  let* rotate := gets pdata_rotate in
  (if 180 <=? rotate then write_reg 0xA1 else write_reg 0xA0) ;;
  (* Set COM Output Scan Direction *)
  let* rotate := gets pdata_rotate in
  (if 180 <=? rotate then write_reg 0xC8 else write_reg 0xC0) ;;
  (* Set COM Pins Hardware Configuration *)
  write_reg 0xDA ;;
  let* yres := gets var_yres in
  (if yres =? 64 then write_reg 0x12
   else if yres =? 48 then write_reg 0x12
   else write_reg 0x02) ;;
  (* Set Memory Addressing Mode: vertical *)
  write_reg 0x20 ;;
  write_reg 0x01 ;;
  (* Set Pre-charge Period *)
  write_reg 0xD9 ;;
  write_reg 0xF1 ;;
  (* Set VCOMH Deselect Level *)
  write_reg 0xDB ;;
  write_reg 0x40 ;;
  (* Entire Display ON: output follows RAM content *)
  write_reg 0xA4 ;;
  (* Set Normal Display *)
  write_reg 0xA6 ;;
  (* Set Display ON *)
  write_reg 0xAF ;;
  ret 0.

Definition set_addr_win_64x48 : M unit :=
  (* 64 columns starting at 32, 6 pages of 8 rows starting at 0 *)
  write_reg 0x21 ;;
  write_reg 0x20 ;;
  write_reg 0x5F ;;
  write_reg 0x22 ;;
  write_reg 0x0 ;;
  write_reg 0x5.

Definition set_addr_win_top_left : M unit :=
  (* xres columns starting from 0, yres / 8 pages starting from 0 *)
  write_reg 0x21 ;;
  write_reg 0x00 ;;
  let* xres := gets var_xres in
  write_reg (u32 (xres - 1)) ;;
  write_reg 0x22 ;;
  write_reg 0x0 ;;
  let* yres := gets var_yres in
  write_reg (u32 (yres / 8 - 1)).

Definition set_addr_win (xs ys xe ye : Z) : M unit :=
  let* xres := gets var_xres in
  let* yres := gets var_yres in
  if (xres =? 64) && (yres =? 48)
  then set_addr_win_64x48
  else set_addr_win_top_left.

Definition blank (on : bool) : M Z :=
  (* fbtft_par_dbg(DEBUG_BLANK, ...): debug output only *)
  (if on then write_reg 0xAE else write_reg 0xAF) ;;
  ret 0.

(** Gamma is used to control contrast. *)
Definition set_gamma (curves : u32_ptr) : M Z :=
  (* apply mask *)
  let* c := load32 curves 0 in
  store32 curves 0 (Z.land c 0xFF) ;;
  (* Set Contrast Control for BANK0 *)
  write_reg 0x81 ;;
  let* c := load32 curves 0 in
  write_reg c ;;
  ret 0.

(** The innermost statement of [write_vmem]:
    [*buf |= (vmem16[(y * 8 + i) * xres + x] ? 1 : 0) << i]. *)
Definition or_pixel_bit (xres x y : Z) (buf : nat) (i : Z) : M unit :=
  let* px := load16 (u32 ((y * 8 + i) * xres + x)) in
  let* b := load8 buf in
  store8 buf (u8 (Z.lor b (Z.shiftl (if px =? 0 then 0 else 1) i))).

(** The body of the loop over the pages [y] of column [x]: clear the byte
    under [buf], gather its eight rows, advance [buf]. *)
Definition pack_page (xres x y : Z) (buf : nat) : M nat :=
  store8 buf 0x00 ;;
  for_loop 8 0 (λ i _, or_pixel_bit xres x y buf i) tt ;;
  ret (S buf).

(** The body of the loop over the columns [x]:
    [for (y = 0; y < yres / 8; y++)]. *)
Definition pack_column (xres yres x : Z) (buf : nat) : M nat :=
  for_loop (Z.to_nat (yres / 8)) 0 (pack_page xres x) buf.

Definition write_vmem (offset len : Z) : M Z :=
  (* Don't do partial updates, always write full buffer *)
  let* xres := gets var_xres in
  let* yres := gets var_yres in
  (* for (x = 0; x < xres; x++), buf starting at par->txbuf.buf *)
  let* _ := for_loop (Z.to_nat xres) 0 (pack_column xres yres) O in
  (* Write data *)
  gpio_set_value_dc 1 ;;
  let* r := fbtftops_write (u32 (xres * yres) / 8) in
  (if r <? 0 then dev_err else ret tt) ;;
  ret r.

(** ** Concrete panels and bus traces *)

Definition panel (xres yres rotate : Z) (contrast : Z) (pixels : list Z)
    (faults : list Z) : world :=
  World xres yres rotate [contrast] pixels
        (replicate (Z.to_nat (xres * yres / 8)) 0xEE) 1 ∅ [] faults.

Definition cmd (v : Z) : event := Xfer Command [v] 0.

(** The events [vs] leave on the bus when each value is sent as a command
    of its own, the transport answering with the codes [fs]. *)
Fixpoint commands (vs : list Z) (fs : list Z) : list event :=
  match vs with
  | [] => []
  | v :: vs' => Xfer Command [v] (hd 0 fs) :: commands vs' (tl fs)
  end.

(** The world after [vs] went out through [write_reg]. *)
Definition after_commands (vs : list Z) (w : world) : world :=
  match vs with
  | [] => w
  | _ => with_bus (wire w ++ commands vs (faults w))
                  (drop (length vs) (faults w)) (with_gpio_dc 0 w)
  end.

(** Spec side of the init sequence: the bytes of steps 2 to 16 of the
    Command Sequencer, in order. *)
Definition init_sequence (yres rotate : Z) : list Z :=
  [ 0xAE;
    0xD5; 0x80;
    0xA8; u32 (yres - 1);
    0xD3; 0x00;
    0x40;
    0x8D; 0x14;
    (if 180 <=? rotate then 0xA1 else 0xA0);
    (if 180 <=? rotate then 0xC8 else 0xC0);
    0xDA; (if (yres =? 64) || (yres =? 48) then 0x12 else 0x02);
    0x20; 0x01;
    0xD9; 0xF1;
    0xDB; 0x40;
    0xA4;
    0xA6;
    0xAF ].

(** The contrast value [init_display] leaves in [curves[0]]. *)
Definition lazy_contrast (yres c : Z) : Z :=
  if c =? 0 then (if yres =? 64 then 0xCF else 0x8F) else c.

(** ** The display state of the facade *)

Inductive DisplayState := Uninitialized | Initializing | On | Blanked.

(** Modelled from the spec: the Display Facade keeps the DisplayState; the
    driver file itself stores none.  [initialize] enters Initializing and
    reaches On when the sequencer reports success. *)
Definition facade_initialize (d : DisplayState) (w : world)
    : option (Z * DisplayState * world) :=
  match init_display w with
  | Some (rc, w') => Some (rc, if rc =? 0 then On else Initializing, w')
  | None => None
  end.

(** Modelled from the spec: blanking toggles On and Blanked and makes no
    other transition. *)
Definition blank_transition (on : bool) (d : DisplayState) : DisplayState :=
  match on, d with
  | true, On => Blanked
  | false, Blanked => On
  | _, _ => d
  end.

Definition facade_set_blank (on : bool) (d : DisplayState) (w : world)
    : option (Z * DisplayState * world) :=
  match blank on w with
  | Some (rc, w') => Some (rc, blank_transition on d, w')
  | None => None
  end.

(** ** Definitions used in the statements and proofs *)

(** The world in which [init_display] starts to send: reset pulsed and the
    contrast default in place. *)
Definition init_prepared (w : world) (c : Z) : world :=
  with_gamma_curves (<[0%nat := lazy_contrast (var_yres w) c]> (gamma_curves w))
    (with_bus (wire w ++ [ResetPulse]) (faults w) w).

(** Reading [p[i]] without running anything. *)
Definition peek32 (p : u32_ptr) (i : nat) (w : world) : option Z :=
  fst <$> load32 p i w.

(** The sample the innermost statement reads for bit [i] of page [y] in
    column [x]; 0 stands in where the buffer has no such sample. *)
Definition pixel_at (vmem : list Z) (xres x y i : Z) : Z :=
  default 0 (vmem !! Z.to_nat (u32 ((y * 8 + i) * xres + x))).

(** The value [n] rounds of the bit loop, started at bit [i], leave in a
    byte that held [b]. *)
Fixpoint or_bits (px : Z → Z) (n : nat) (i : Z) (b : Z) : Z :=
  match n with
  | O => b
  | S n' =>
      or_bits px n' (i + 1)
        (u8 (Z.lor b (Z.shiftl (if px i =? 0 then 0 else 1) i)))
  end.

Definition page_byte (vmem : list Z) (xres x y : Z) : Z :=
  or_bits (pixel_at vmem xres x y) 8 0 0.

(** [fills w c buf m g]: whatever the transmit buffer holds, [c] writes the
    [m] bytes [g 0 .. g (m-1)] at [buf], touches nothing else and returns
    the advanced pointer. *)
Definition fills (w : world) (c : M nat) (buf m : nat) (g : nat → Z) : Prop :=
  ∀ t, (buf + m ≤ length t)%nat →
    ∃ t', c (with_txbuf_buf t w) = Some ((buf + m)%nat, with_txbuf_buf t' w)
          ∧ length t' = length t
          ∧ ∀ j, t' !! j
                 = if decide (buf ≤ j < buf + m)%nat
                   then Some (g (j - buf)%nat) else t !! j.

(** Every sample the packer will ask for is inside the pixel buffer. *)
Definition readable (vmem : list Z) (xres yres : Z) : Prop :=
  ∀ x y i, 0 ≤ x < xres → 0 ≤ y < yres / 8 → 0 ≤ i < 8 →
    is_Some (vmem !! Z.to_nat (u32 ((y * 8 + i) * xres + x))).

(** The world [write_vmem] leaves when the packer made [t'] of the
    transmit buffer and [n] bytes went out. *)
Definition after_burst (t' : list Z) (n : nat) (w : world) : world :=
  with_bus (wire w ++ [Xfer Data (take n t') (hd 0 (faults w))])
           (tl (faults w)) (with_gpio_dc 1 (with_txbuf_buf t' w)).

(** Spec side of the round trip: the sample sequence a packed frame stands
    for.  Sample [k] of a row-major buffer is pixel [(k mod width,
    k / width)], which the packed frame keeps in bit [row mod 8] of byte
    [x * (height / 8) + row / 8]. *)
Definition expand (width height : Z) (packed : list Z) : list Z :=
  map (λ n : nat,
         let k := Z.of_nat n in
         let x := k mod width in
         let row := k / width in
         let byte := default 0 (packed !! Z.to_nat (x * (height / 8) + row / 8)) in
         if Z.testbit byte (row mod 8) then 1 else 0)
      (seq 0 (Z.to_nat (width * height))).

(** The events a computation leaves on the bus of [w]. *)
Definition bus_trace {A} (c : M A) (w : world) : list event :=
  match c w with
  | Some (_, w') => wire w'
  | None => []
  end.

(** The world with another pixel buffer behind [screen_buffer]. *)
Definition with_screen_buffer (v : list Z) (w : world) : world :=
  World (var_xres w) (var_yres w) (pdata_rotate w) (gamma_curves w)
        v (txbuf_buf w) (gpio_dc w) (heap w) (wire w) (faults w).

(** The six values [set_addr_win] sends for a geometry. *)
Definition window_sequence (xres yres : Z) : list Z :=
  if (xres =? 64) && (yres =? 48)
  then [0x21; 0x20; 0x5F; 0x22; 0x0; 0x5]
  else [0x21; 0x00; u32 (xres - 1); 0x22; 0x0; u32 (yres / 8 - 1)].

(** The world after a store of [v] to [p[i]] that stays in bounds. *)
Definition poke32 (p : u32_ptr) (i : nat) (v : Z) (w : world) : world :=
  match p with
  | par_gamma_curves => with_gamma_curves (<[i:=v]> (gamma_curves w)) w
  | heap_array l =>
      with_heap (<[l := <[i:=v]> (default [] (heap w !! l))]> (heap w)) w
  end.

(** [overruns w c buf m]: a transmit buffer that ends inside the [m] bytes
    [c] is to write at [buf] makes [c] store past its end. *)
Definition overruns (w : world) (c : M nat) (buf m : nat) : Prop :=
  ∀ t, (buf ≤ length t < buf + m)%nat → c (with_txbuf_buf t w) = None.

(** [out] is the packed frame of the pixel buffer [vmem]: one byte for
    every column and page, bit [i] of it telling whether the sample of row
    [y * 8 + i] is nonzero. *)
Definition packs (vmem : list Z) (xres yres : Z) (out : list Z) : Prop :=
  Z.of_nat (length out) = xres * yres / 8
  ∧ ∀ x y i, 0 ≤ x < xres → 0 ≤ y < yres / 8 → 0 ≤ i < 8 →
      ∃ byte px,
        out !! Z.to_nat (x * (yres / 8) + y) = Some byte
        ∧ vmem !! Z.to_nat ((y * 8 + i) * xres + x) = Some px
        ∧ Z.testbit byte i = negb (px =? 0).

(** [c] never writes the pixel buffer. *)
Definition keeps_pixels {A} (c : M A) : Prop :=
  ∀ w a w', c w = Some (a, w') → screen_buffer w' = screen_buffer w.

(** ** Basic facts about the monad and the bus *)

Lemma bind_Some {A B} (c : M A) (k : A → M B) w a w' :
  c w = Some (a, w') → bind c k w = k a w'.
Proof. intros E. unfold bind. now rewrite E. Qed.

Lemma commands_app vs1 vs2 fs :
  commands (vs1 ++ vs2) fs
  = commands vs1 fs ++ commands vs2 (drop (length vs1) fs).
Proof.
  revert fs. induction vs1 as [|v vs1 IH]; intros fs; simpl.
  - now rewrite drop_0.
  - rewrite IH. f_equal. f_equal. f_equal.
    destruct fs; simpl; [now rewrite drop_nil | reflexivity].
Qed.

Lemma commands_length vs fs : length (commands vs fs) = length vs.
Proof. revert fs. induction vs; intros; simpl; auto. Qed.

Lemma commands_healthy vs : commands vs [] = map cmd vs.
Proof. induction vs; simpl; [|rewrite IHvs]; reflexivity. Qed.

Lemma write_reg_run v w :
  write_reg v w = Some (tt, after_commands [v] w).
Proof. reflexivity. Qed.

Lemma after_commands_snoc vs v w :
  after_commands [v] (after_commands vs w) = after_commands (vs ++ [v]) w.
Proof.
  destruct vs as [|v0 vs]; [reflexivity|].
  unfold after_commands at 1 2. cbn [app].
  unfold after_commands. cbn [with_bus with_gpio_dc wire faults gpio_dc
    var_xres var_yres pdata_rotate gamma_curves screen_buffer txbuf_buf heap].
  rewrite (commands_app (v0 :: vs) [v]), <- app_assoc.
  rewrite drop_drop, <- (length_app (v0 :: vs) [v]). reflexivity.
Qed.

Lemma write_reg_then {B} v (k : unit → M B) vs w :
  bind (write_reg v) k (after_commands vs w)
  = k tt (after_commands (vs ++ [v]) w).
Proof.
  rewrite (bind_Some _ _ _ _ _ (write_reg_run v _)).
  now rewrite after_commands_snoc.
Qed.

Lemma write_reg_last v vs w :
  write_reg v (after_commands vs w) = Some (tt, after_commands (vs ++ [v]) w).
Proof. now rewrite write_reg_run, after_commands_snoc. Qed.

Lemma gets_then {A B} (f : world → A) (k : A → M B) w :
  bind (gets f) k w = k (f w) w.
Proof. reflexivity. Qed.

Lemma ret_then {A B} (a : A) (k : A → M B) w : bind (ret a) k w = k a w.
Proof. reflexivity. Qed.

Lemma write_reg_if (b : bool) x y :
  (if b then write_reg x else write_reg y) = write_reg (if b then x else y).
Proof. now destruct b. Qed.

Lemma var_xres_after vs w : var_xres (after_commands vs w) = var_xres w.
Proof. now destruct vs. Qed.

Lemma var_yres_after vs w : var_yres (after_commands vs w) = var_yres w.
Proof. now destruct vs. Qed.

Lemma pdata_rotate_after vs w : pdata_rotate (after_commands vs w) = pdata_rotate w.
Proof. now destruct vs. Qed.

Lemma gamma_curves_after vs w : gamma_curves (after_commands vs w) = gamma_curves w.
Proof. now destruct vs. Qed.

Lemma heap_after vs w : heap (after_commands vs w) = heap w.
Proof. now destruct vs. Qed.

Lemma wire_after vs w :
  wire (after_commands vs w) = wire w ++ commands vs (faults w).
Proof. destruct vs; [simpl; now rewrite app_nil_r | reflexivity]. Qed.

Lemma faults_after vs w :
  faults (after_commands vs w) = drop (length vs) (faults w).
Proof. now destruct vs. Qed.

(** Rewrites one straight-line driver body into the list of values it
    sends. *)
Ltac run_commands :=
  repeat first
    [ rewrite write_reg_then
    | rewrite write_reg_last
    | rewrite gets_then
    | rewrite ret_then
    | rewrite write_reg_if
    | rewrite var_xres_after
    | rewrite var_yres_after
    | rewrite pdata_rotate_after ];
  cbn [app].

Lemma with_gamma_curves_id w c :
  gamma_curves w !! 0%nat = Some c →
  with_gamma_curves (<[0%nat := c]> (gamma_curves w)) w = w.
Proof.
  intros H. rewrite list_insert_id by exact H. now destruct w.
Qed.

Lemma init_display_run w c :
  gamma_curves w !! 0%nat = Some c →
  init_display w
  = Some (0, after_commands (init_sequence (var_yres w) (pdata_rotate w))
               (init_prepared w c)).
Proof.
  intros Hc. unfold init_display.
  rewrite (bind_Some _ _ _ tt (with_bus (wire w ++ [ResetPulse]) (faults w) w))
    by reflexivity.
  set (w1 := with_bus (wire w ++ [ResetPulse]) (faults w) w).
  assert (Hc1 : gamma_curves w1 !! 0%nat = Some c) by exact Hc.
  rewrite (bind_Some _ _ _ c w1) by (unfold load32; now rewrite Hc1).
  assert (Hlen : (0 < length (gamma_curves w1))%nat)
    by (apply lookup_lt_Some in Hc1; exact Hc1).
  rewrite (bind_Some _ _ _ tt (init_prepared w c)).
  2:{ unfold init_prepared, lazy_contrast. fold w1.
      replace (var_yres w) with (var_yres w1) by reflexivity.
      destruct (c =? 0) eqn:E.
      - unfold mutex_lock, mutex_unlock. rewrite ret_then, gets_then.
        destruct (var_yres w1 =? 64); unfold bind, store32, ret;
          (destruct (decide (0 < length (gamma_curves w1))%nat); [reflexivity|lia]).
      - unfold ret. f_equal. f_equal. symmetry.
        change (gamma_curves w) with (gamma_curves w1).
        now apply with_gamma_curves_id. }
  change (init_prepared w c) with (after_commands [] (init_prepared w c)).
  run_commands.
  replace (var_yres (init_prepared w c)) with (var_yres w) by reflexivity.
  replace (pdata_rotate (init_prepared w c)) with (pdata_rotate w) by reflexivity.
  unfold ret, init_sequence. do 3 f_equal.
  destruct (var_yres w =? 64), (var_yres w =? 48); reflexivity.
Qed.

Lemma set_addr_win_64x48_run w :
  set_addr_win_64x48 w
  = Some (tt, after_commands [0x21; 0x20; 0x5F; 0x22; 0x0; 0x5] w).
Proof.
  unfold set_addr_win_64x48.
  change w with (after_commands [] w) at 1. now run_commands.
Qed.

Lemma set_addr_win_top_left_run w :
  set_addr_win_top_left w
  = Some (tt, after_commands
                [0x21; 0x00; u32 (var_xres w - 1);
                 0x22; 0x0; u32 (var_yres w / 8 - 1)] w).
Proof.
  unfold set_addr_win_top_left.
  change w with (after_commands [] w) at 1. now run_commands.
Qed.

Lemma set_addr_win_dispatch xs ys xe ye w :
  set_addr_win xs ys xe ye w
  = if (var_xres w =? 64) && (var_yres w =? 48)
    then set_addr_win_64x48 w
    else set_addr_win_top_left w.
Proof.
  unfold set_addr_win. rewrite !gets_then.
  now destruct ((var_xres w =? 64) && (var_yres w =? 48)).
Qed.

Lemma blank_run on w :
  blank on w = Some (0, after_commands [if on then 0xAE else 0xAF] w).
Proof.
  unfold blank. rewrite write_reg_if.
  change w with (after_commands [] w) at 1. now run_commands.
Qed.

Lemma load32_peek p i w c : peek32 p i w = Some c → load32 p i w = Some (c, w).
Proof.
  unfold peek32, load32. destruct p.
  - destruct (gamma_curves w !! i); simpl; congruence.
  - destruct (heap w !! l) as [a|]; simpl; [|congruence].
    destruct (a !! i); simpl; congruence.
Qed.

Lemma peek32_after p i vs w : peek32 p i (after_commands vs w) = peek32 p i w.
Proof.
  unfold peek32, load32. destruct p.
  - rewrite gamma_curves_after. now destruct (gamma_curves w !! i).
  - rewrite heap_after. destruct (heap w !! l) as [a|]; simpl; [|reflexivity].
    now destruct (a !! i).
Qed.

Lemma store32_peek p v w c :
  peek32 p 0 w = Some c →
  ∃ w1, store32 p 0 v w = Some (tt, w1)
        ∧ peek32 p 0 w1 = Some v
        ∧ wire w1 = wire w ∧ faults w1 = faults w.
Proof.
  unfold peek32, load32, store32. destruct p.
  - destruct (gamma_curves w) as [|c0 cs] eqn:E; simpl; [congruence|].
    intros _. eexists. split; [reflexivity|]. now simpl.
  - destruct (heap w !! l) as [a|] eqn:E; simpl; [|congruence].
    destruct a as [|c0 cs]; simpl; [congruence|].
    intros _. eexists. split; [reflexivity|]. simpl.
    rewrite lookup_insert_eq. now simpl.
Qed.

Lemma set_gamma_run curves w level :
  peek32 curves 0 w = Some level →
  ∃ w1, store32 curves 0 (Z.land level 0xFF) w = Some (tt, w1)
        ∧ set_gamma curves w
          = Some (0, after_commands [0x81; Z.land level 0xFF] w1).
Proof.
  intros H.
  destruct (store32_peek curves (Z.land level 0xFF) w level H)
    as (w1 & Hst & Hpk & _).
  exists w1. split; [exact Hst|].
  unfold set_gamma.
  rewrite (bind_Some _ _ _ _ _ (load32_peek _ _ _ _ H)).
  rewrite (bind_Some _ _ _ _ _ Hst).
  change w1 with (after_commands [] w1) at 1. rewrite write_reg_then.
  rewrite (bind_Some _ _ _ (Z.land level 0xFF) (after_commands ([] ++ [0x81]) w1)).
  2:{ apply load32_peek. now rewrite peek32_after. }
  now run_commands.
Qed.

(** ** The frame packer *)

Lemma or_pixel_bit_run xres x y buf i w t b :
  is_Some (screen_buffer w !! Z.to_nat (u32 ((y * 8 + i) * xres + x))) →
  t !! buf = Some b →
  or_pixel_bit xres x y buf i (with_txbuf_buf t w)
  = Some (tt, with_txbuf_buf
                (<[buf := u8 (Z.lor b (Z.shiftl
                     (if pixel_at (screen_buffer w) xres x y i =? 0
                      then 0 else 1) i))]> t) w).
Proof.
  intros [px Hpx] Hb. unfold or_pixel_bit, pixel_at. rewrite Hpx. simpl.
  rewrite (bind_Some _ _ _ px (with_txbuf_buf t w))
    by (unfold load16; simpl; now rewrite Hpx).
  rewrite (bind_Some _ _ _ b (with_txbuf_buf t w))
    by (unfold load8; simpl; now rewrite Hb).
  unfold store8. simpl.
  apply lookup_lt_Some in Hb.
  destruct (decide (buf < length t)%nat); [reflexivity | lia].
Qed.

Lemma bit_loop_run xres x y buf w n :
  ∀ i0 t b,
    (∀ i, i0 ≤ i < i0 + Z.of_nat n →
       is_Some (screen_buffer w !! Z.to_nat (u32 ((y * 8 + i) * xres + x)))) →
    t !! buf = Some b →
    for_loop n i0 (λ i _, or_pixel_bit xres x y buf i) tt (with_txbuf_buf t w)
    = Some (tt, with_txbuf_buf
                  (<[buf := or_bits (pixel_at (screen_buffer w) xres x y) n i0 b]> t)
                  w).
Proof.
  induction n as [|n IH]; intros i0 t b Hrd Hb.
  - simpl. unfold ret. now rewrite list_insert_id.
  - cbn [for_loop or_bits].
    rewrite (bind_Some _ _ _ _ _ (or_pixel_bit_run xres x y buf i0 w t b
               (Hrd i0 ltac:(lia)) Hb)).
    rewrite (IH (i0 + 1) _ _ (λ i Hi, Hrd i ltac:(lia))
               (list_lookup_insert_eq _ _ _ (lookup_lt_Some _ _ _ Hb))).
    now rewrite list_insert_insert_eq.
Qed.

Lemma pack_page_run xres x y buf w t :
  (∀ i, 0 ≤ i < 8 →
     is_Some (screen_buffer w !! Z.to_nat (u32 ((y * 8 + i) * xres + x)))) →
  (buf < length t)%nat →
  pack_page xres x y buf (with_txbuf_buf t w)
  = Some (S buf, with_txbuf_buf
                   (<[buf := page_byte (screen_buffer w) xres x y]> t) w).
Proof.
  intros Hrd Hlt. unfold pack_page.
  rewrite (bind_Some _ _ _ tt (with_txbuf_buf (<[buf := 0]> t) w)).
  2:{ unfold store8. simpl.
      destruct (decide (buf < length t)%nat); [reflexivity | lia]. }
  rewrite (bind_Some _ _ _ _ _
             (bit_loop_run xres x y buf w 8 0 _ 0 Hrd
                (list_lookup_insert_eq _ _ _ Hlt))).
  rewrite list_insert_insert_eq. reflexivity.
Qed.

Lemma testbit_1 (k : Z) : Z.testbit 1 k = bool_decide (k = 0).
Proof.
  case_bool_decide as H.
  - now subst.
  - destruct (Z.lt_ge_cases k 0) as [Hn|Hp].
    + now apply Z.testbit_neg_r.
    + apply Z.bits_above_log2; simpl; lia.
Qed.

Lemma u8_testbit z j : 0 ≤ j < 8 → Z.testbit (u8 z) j = Z.testbit z j.
Proof.
  intros Hj. unfold u8. change 0xFF with (Z.ones 8).
  rewrite Z.land_ones by lia. apply Z.mod_pow2_bits_low. lia.
Qed.

Lemma u8_range z : 0 ≤ u8 z < 256.
Proof.
  unfold u8. change 0xFF with (Z.ones 8).
  rewrite Z.land_ones by lia. apply Z.mod_pos_bound. lia.
Qed.

Lemma or_bits_testbit px n :
  ∀ i0 b j, 0 ≤ i0 → 0 ≤ j < 8 →
    Z.testbit (or_bits px n i0 b) j
    = Z.testbit b j
      || (bool_decide (i0 ≤ j < i0 + Z.of_nat n) && negb (px j =? 0)).
Proof.
  induction n as [|n IH]; intros i0 b j Hi Hj.
  - simpl. rewrite bool_decide_eq_false_2 by lia. now rewrite orb_false_r.
  - cbn [or_bits]. rewrite IH by lia.
    rewrite u8_testbit, Z.lor_spec, Z.shiftl_spec by lia.
    rewrite <- orb_assoc. f_equal.
    destruct (decide (j = i0)) as [->|Hne].
    + rewrite Z.sub_diag.
      rewrite (bool_decide_eq_false_2 (i0 + 1 ≤ i0 < _)) by lia.
      rewrite (bool_decide_eq_true_2 (i0 ≤ i0 < _)) by lia.
      now destruct (px i0 =? 0).
    + replace (Z.testbit (if px i0 =? 0 then 0 else 1) (j - i0)) with false.
      2:{ destruct (px i0 =? 0); [now rewrite Z.bits_0|].
          rewrite testbit_1. now rewrite bool_decide_eq_false_2 by lia. }
      simpl. f_equal. apply bool_decide_ext. lia.
Qed.

Lemma or_bits_range px n : ∀ i0 b, 0 ≤ b < 256 → 0 ≤ or_bits px n i0 b < 256.
Proof.
  induction n as [|n IH]; intros i0 b Hb; simpl; [exact Hb|].
  apply IH, u8_range.
Qed.

Lemma page_byte_testbit vmem xres x y i :
  0 ≤ i < 8 →
  Z.testbit (page_byte vmem xres x y) i = negb (pixel_at vmem xres x y i =? 0).
Proof.
  intros Hi. unfold page_byte. rewrite or_bits_testbit by lia.
  rewrite Z.bits_0. simpl. now rewrite bool_decide_eq_true_2 by lia.
Qed.

Lemma page_byte_range vmem xres x y : 0 ≤ page_byte vmem xres x y < 256.
Proof. apply or_bits_range. lia. Qed.

Lemma fills_ext w c buf m g g' :
  (∀ r, (r < m)%nat → g r = g' r) → fills w c buf m g → fills w c buf m g'.
Proof.
  intros Hg Hf t Ht. destruct (Hf t Ht) as (t' & Hrun & Hlen & Hlk).
  exists t'. repeat split; auto.
  intros j. rewrite Hlk. destruct (decide _); [|reflexivity].
  rewrite Hg by lia. reflexivity.
Qed.

Lemma fills_for_loop w (body : Z → nat → M nat) m (g : Z → nat → Z) n :
  ∀ k0 buf,
    (∀ k buf', k0 ≤ k < k0 + Z.of_nat n → fills w (body k buf') buf' m (g k)) →
    fills w (for_loop n k0 body buf) buf (n * m)
      (λ r, g (k0 + Z.of_nat (r / m)) (r mod m)%nat).
Proof.
  induction n as [|n IH]; intros k0 buf Hbody t Ht.
  - exists t. cbn [for_loop Nat.mul]. rewrite Nat.add_0_r.
    repeat split; auto. intros j. destruct (decide _); [lia | reflexivity].
  - cbn [for_loop].
    destruct (Hbody k0 buf ltac:(lia) t ltac:(lia)) as (t1 & Hrun1 & Hlen1 & Hlk1).
    rewrite (bind_Some _ _ _ _ _ Hrun1).
    destruct (IH (k0 + 1) (buf + m)%nat (λ k b Hk, Hbody k b ltac:(lia))
                t1 ltac:(lia)) as (t2 & Hrun2 & Hlen2 & Hlk2).
    exists t2. rewrite Hrun2. split; [do 2 f_equal; lia|].
    split; [congruence|].
    intros j. rewrite Hlk2, Hlk1.
    destruct (decide (buf + m ≤ j < buf + m + n * m)%nat) as [Hin|Hout].
    + rewrite decide_True by lia.
      assert (Hm : (0 < m)%nat) by lia.
      replace (j - buf)%nat with ((j - (buf + m)) + 1 * m)%nat by lia.
      rewrite Nat.div_add, Nat.Div0.mod_add by lia.
      do 2 f_equal. lia.
    + destruct (decide (buf ≤ j < buf + m)%nat) as [Hin1|Hout1].
      * rewrite decide_True by lia.
        rewrite Nat.div_small, Nat.mod_small by lia.
        do 2 f_equal. lia.
      * rewrite decide_False by lia. reflexivity.
Qed.

Lemma pack_page_fills w xres x y buf :
  (∀ i, 0 ≤ i < 8 →
     is_Some (screen_buffer w !! Z.to_nat (u32 ((y * 8 + i) * xres + x)))) →
  fills w (pack_page xres x y buf) buf 1
    (λ _, page_byte (screen_buffer w) xres x y).
Proof.
  intros Hrd t Ht.
  exists (<[buf := page_byte (screen_buffer w) xres x y]> t).
  rewrite pack_page_run by (auto; lia).
  split; [do 2 f_equal; lia|]. split; [apply length_insert|].
  intros j. destruct (decide (buf ≤ j < buf + 1)%nat) as [Hj|Hj].
  - replace j with buf by lia. apply list_lookup_insert_eq. lia.
  - apply list_lookup_insert_ne. lia.
Qed.

Lemma pack_column_fills w xres yres x buf :
  readable (screen_buffer w) xres yres → 0 ≤ x < xres →
  fills w (pack_column xres yres x buf) buf (Z.to_nat (yres / 8))
    (λ r, page_byte (screen_buffer w) xres x (Z.of_nat r)).
Proof.
  intros Hrd Hx. unfold pack_column.
  pose proof (fills_for_loop w (pack_page xres x) 1
                (λ y _, page_byte (screen_buffer w) xres x y)
                (Z.to_nat (yres / 8)) 0 buf) as H.
  rewrite Nat.mul_1_r in H.
  eapply fills_ext; [|apply H].
  - intros r Hr. cbn beta. rewrite Nat.div_1_r. f_equal.
  - intros y buf' Hy. apply pack_page_fills.
    intros i Hi. apply Hrd; lia.
Qed.

Lemma pack_frame_fills w xres yres :
  readable (screen_buffer w) xres yres →
  fills w (for_loop (Z.to_nat xres) 0 (pack_column xres yres) O) O
    (Z.to_nat xres * Z.to_nat (yres / 8))
    (λ r, page_byte (screen_buffer w) xres
            (Z.of_nat (r / Z.to_nat (yres / 8)))
            (Z.of_nat (r mod Z.to_nat (yres / 8)))).
Proof.
  intros Hrd.
  eapply fills_ext;
    [|apply (fills_for_loop w (pack_column xres yres) (Z.to_nat (yres / 8))
               (λ x r, page_byte (screen_buffer w) xres x (Z.of_nat r)))].
  - intros r Hr. cbn beta. f_equal.
  - intros x buf' Hx. apply pack_column_fills; [exact Hrd | lia].
Qed.

Lemma with_txbuf_buf_id w : with_txbuf_buf (txbuf_buf w) w = w.
Proof. now destruct w. Qed.

Lemma write_vmem_run offset len w :
  0 < var_xres w → 0 < var_yres w → var_yres w mod 8 = 0 →
  var_xres w * var_yres w < 2 ^ 32 →
  readable (screen_buffer w) (var_xres w) (var_yres w) →
  (Z.to_nat (var_xres w * var_yres w / 8) ≤ length (txbuf_buf w))%nat →
  ∃ t',
    write_vmem offset len w
    = Some (hd 0 (faults w),
            after_burst t' (Z.to_nat (var_xres w * var_yres w / 8)) w)
    ∧ length t' = length (txbuf_buf w)
    ∧ ∀ x y, 0 ≤ x < var_xres w → 0 ≤ y < var_yres w / 8 →
        t' !! Z.to_nat (x * (var_yres w / 8) + y)
        = Some (page_byte (screen_buffer w) (var_xres w) x y).
Proof.
  intros Hx Hy Hy8 Hsz Hrd Htx.
  set (xres := var_xres w) in *. set (yres := var_yres w) in *.
  assert (Hyres : yres = 8 * (yres / 8)) by (apply Z.div_exact; lia).
  assert (Hny : 0 < yres / 8) by lia.
  assert (Hn : xres * yres / 8 = xres * (yres / 8)).
  { rewrite Hyres at 1. rewrite (Z.mul_comm 8), Z.mul_assoc.
    apply Z.div_mul. lia. }
  assert (Hnn : Z.to_nat (xres * yres / 8)
                = (Z.to_nat xres * Z.to_nat (yres / 8))%nat)
    by (rewrite Hn; apply Z2Nat.inj_mul; lia).
  destruct (pack_frame_fills w xres yres Hrd (txbuf_buf w) ltac:(lia))
    as (t' & Hrun & Hlen & Hlk).
  rewrite with_txbuf_buf_id in Hrun. simpl in Hrun.
  exists t'. split; [|split; [exact Hlen|]].
  - unfold write_vmem. rewrite !gets_then. fold xres yres.
    rewrite (bind_Some _ _ _ _ _ Hrun).
    unfold gpio_set_value_dc.
    rewrite (bind_Some _ _ _ tt (with_gpio_dc 1 (with_txbuf_buf t' w)))
      by reflexivity.
    assert (Hu : u32 (xres * yres) / 8 = xres * yres / 8).
    { unfold u32. rewrite Z.mod_small; [reflexivity | nia]. }
    rewrite Hu.
    rewrite (bind_Some _ _ _ (hd 0 (faults w))
               (after_burst t' (Z.to_nat (xres * yres / 8)) w)).
    2:{ unfold fbtftops_write. rewrite gets_then.
        cbn [txbuf_buf with_gpio_dc with_txbuf_buf].
        destruct (decide (0 ≤ xres * yres / 8 ≤ Z.of_nat (length t'))) as [_|Hbad];
          [reflexivity|].
        exfalso. apply Hbad. rewrite Hlen. lia. }
    unfold dev_err. now destruct (hd 0 (faults w) <? 0).
  - intros x y Hx' Hy'. rewrite Hlk.
    assert (Hj : Z.to_nat (x * (yres / 8) + y)
                 = (Z.to_nat y + Z.to_nat x * Z.to_nat (yres / 8))%nat) by nia.
    rewrite decide_True by nia.
    rewrite Nat.sub_0_r, Hj.
    rewrite Nat.div_add, Nat.Div0.mod_add by lia.
    rewrite Nat.div_small, Nat.mod_small by lia.
    f_equal. f_equal; lia.
Qed.

Lemma readable_of_length vmem xres yres :
  0 < xres → 0 < yres → yres mod 8 = 0 → xres * yres < 2 ^ 32 →
  length vmem = Z.to_nat (xres * yres) →
  readable vmem xres yres.
Proof.
  intros Hx Hy Hy8 Hsz Hlen x y i Hx' Hy' Hi.
  assert (Hyres : yres = 8 * (yres / 8)) by (apply Z.div_exact; lia).
  apply lookup_lt_is_Some. rewrite Hlen.
  unfold u32. rewrite Z.mod_small by nia. nia.
Qed.

Lemma pixel_at_lookup vmem xres yres x y i :
  0 < xres → 0 < yres → yres mod 8 = 0 → xres * yres < 2 ^ 32 →
  0 ≤ x < xres → 0 ≤ y < yres / 8 → 0 ≤ i < 8 →
  pixel_at vmem xres x y i
  = default 0 (vmem !! Z.to_nat ((y * 8 + i) * xres + x)).
Proof.
  intros Hx Hy Hy8 Hsz Hx' Hy' Hi.
  assert (Hyres : yres = 8 * (yres / 8)) by (apply Z.div_exact; lia).
  unfold pixel_at, u32. now rewrite Z.mod_small by nia.
Qed.

(** ** Scenarios *)

(** A 128x32 panel at 0 degrees: the init sequence ends in Display ON. *)
Example init_display_128x32 :
  bus_trace init_display (panel 128 32 0 0 [] [])
  = ResetPulse
    :: map cmd [0xAE; 0xD5; 0x80; 0xA8; 0x1F; 0xD3; 0x00; 0x40; 0x8D; 0x14;
                0xA0; 0xC0; 0xDA; 0x02; 0x20; 0x01; 0xD9; 0xF1; 0xDB; 0x40;
                0xA4; 0xA6; 0xAF].
Proof. vm_compute. reflexivity. Qed.

(** The same panel mounted upside down. *)
Example init_display_128x64_rotated :
  bus_trace init_display (panel 128 64 180 0 [] [])
  = ResetPulse
    :: map cmd [0xAE; 0xD5; 0x80; 0xA8; 0x3F; 0xD3; 0x00; 0x40; 0x8D; 0x14;
                0xA1; 0xC8; 0xDA; 0x12; 0x20; 0x01; 0xD9; 0xF1; 0xDB; 0x40;
                0xA4; 0xA6; 0xAF].
Proof. vm_compute. reflexivity. Qed.

(** Only pixel (0,0) lit on 128x32: 512 bytes, the first 0x01, the rest 0. *)
Example write_vmem_128x32_origin_lit :
  bus_trace (write_vmem 0 0) (panel 128 32 0 0 (1 :: replicate 4095 0) [])
  = [Xfer Data (1 :: replicate 511 0) 0].
Proof. vm_compute. reflexivity. Qed.

(** Pixel (1,9) lit on 8x16: column 1, page 1, bit 1. *)
Example write_vmem_8x16_pixel_1_9 :
  bus_trace (write_vmem 0 0)
    (panel 8 16 0 0 (replicate 73 0 ++ 0x1234 :: replicate 54 0) [])
  = [Xfer Data [0; 0; 0; 2; 0; 0; 0; 0; 0; 0; 0; 0; 0; 0; 0; 0] 0].
Proof. vm_compute. reflexivity. Qed.

(** A transmit buffer too short for the frame: the packer would write
    past its end. *)
Example write_vmem_short_txbuf :
  write_vmem 0 0 (with_txbuf_buf [0; 0; 0] (panel 8 16 0 0 (replicate 128 0) []))
  = None.
Proof. vm_compute. reflexivity. Qed.

(** A failing burst: [write_vmem] hands the error code back. *)
Example write_vmem_bus_error :
  fst <$> write_vmem 0 0 (panel 8 8 0 0 (replicate 64 1) [-5]) = Some (-5).
Proof. vm_compute. reflexivity. Qed.

(** Contrast 0x1CF handed over in a caller's array: 0x81, then 0xCF. *)
Example set_gamma_caller_array :
  bus_trace (set_gamma (heap_array 7))
    (with_heap {[ 7%nat := [0x1CF] ]} (panel 128 64 0 0 [] []))
  = map cmd [0x81; 0xCF].
Proof. vm_compute. reflexivity. Qed.

(** ** The driver against its specification *)

(** C1.  For a geometry with height a multiple of 8 and a pixel buffer of
    width*height samples, [write_vmem] sends one data burst of exactly
    width*height/8 bytes; the byte at index x*(height/8)+y has bit i set
    exactly when the sample at row-major index (y*8+i)*width+x is nonzero,
    for every column x, page y and bit i in [0,8). *)
Theorem write_vmem_packs_frame offset len w :
  0 < var_xres w → 0 < var_yres w → var_yres w mod 8 = 0 →
  var_xres w * var_yres w < 2 ^ 32 →
  length (screen_buffer w) = Z.to_nat (var_xres w * var_yres w) →
  (Z.to_nat (var_xres w * var_yres w / 8) ≤ length (txbuf_buf w))%nat →
  ∃ out w',
    write_vmem offset len w = Some (hd 0 (faults w), w')
    ∧ wire w' = wire w ++ [Xfer Data out (hd 0 (faults w))]
    ∧ Z.of_nat (length out) = var_xres w * var_yres w / 8
    ∧ ∀ x y, 0 ≤ x < var_xres w → 0 ≤ y < var_yres w / 8 →
        ∃ byte,
          out !! Z.to_nat (x * (var_yres w / 8) + y) = Some byte
          ∧ 0 ≤ byte < 256
          ∧ ∀ i, 0 ≤ i < 8 →
              ∃ px,
                screen_buffer w !! Z.to_nat ((y * 8 + i) * var_xres w + x)
                = Some px
                ∧ Z.testbit byte i = negb (px =? 0).
Proof.
  intros Hx Hy Hy8 Hsz Hlen Htx.
  pose proof (readable_of_length _ _ _ Hx Hy Hy8 Hsz Hlen) as Hrd.
  destruct (write_vmem_run offset len w Hx Hy Hy8 Hsz Hrd Htx)
    as (t' & Hrun & Hlen' & Hlk).
  assert (Hyres : var_yres w = 8 * (var_yres w / 8)) by (apply Z.div_exact; lia).
  eexists (take (Z.to_nat (var_xres w * var_yres w / 8)) t'), _.
  split; [exact Hrun|]. split; [reflexivity|].
  split.
  { rewrite length_take, Hlen'.
    assert (0 ≤ var_xres w * var_yres w / 8) by (apply Z.div_pos; lia). lia. }
  intros x y Hx' Hy'.
  exists (page_byte (screen_buffer w) (var_xres w) x y).
  split.
  { rewrite lookup_take_lt; [now apply Hlk|].
    replace (var_xres w * var_yres w / 8) with (var_xres w * (var_yres w / 8)).
    - nia.
    - rewrite Hyres at 2. rewrite (Z.mul_comm 8), Z.mul_assoc.
      symmetry. apply Z.div_mul. lia. }
  split; [apply page_byte_range|].
  intros i Hi.
  destruct (Hrd x y i Hx' Hy' Hi) as [px Hpx].
  unfold u32 in Hpx. rewrite Z.mod_small in Hpx by nia.
  exists px. split; [exact Hpx|].
  rewrite page_byte_testbit by exact Hi.
  rewrite (pixel_at_lookup _ _ (var_yres w)) by assumption.
  now rewrite Hpx.
Qed.

Lemma write_vmem_packs_frame_witness :
  ∃ out w',
    write_vmem 0 0 (panel 8 16 0 0 (1 :: replicate 127 0) [])
    = Some (0, w')
    ∧ wire w' = [] ++ [Xfer Data out 0]
    ∧ Z.of_nat (length out) = 8 * 16 / 8
    ∧ ∀ x y, 0 ≤ x < 8 → 0 ≤ y < 16 / 8 →
        ∃ byte,
          out !! Z.to_nat (x * (16 / 8) + y) = Some byte
          ∧ 0 ≤ byte < 256
          ∧ ∀ i, 0 ≤ i < 8 →
              ∃ px,
                (1 :: replicate 127 0) !! Z.to_nat ((y * 8 + i) * 8 + x)
                = Some px
                ∧ Z.testbit byte i = negb (px =? 0).
Proof.
  apply (write_vmem_packs_frame 0 0 (panel 8 16 0 0 (1 :: replicate 127 0) []));
    vm_compute; solve [reflexivity | discriminate].
Defined.

(** C7.  For a pixel buffer of samples 0 or 1 and a geometry with height a
    multiple of 8, packing with [write_vmem] and expanding every bit of the
    packed frame back (bit i of byte x*(height/8)+y to position (x, y*8+i))
    gives the original buffer back. *)
Theorem write_vmem_expand_roundtrip offset len w :
  0 < var_xres w → 0 < var_yres w → var_yres w mod 8 = 0 →
  var_xres w * var_yres w < 2 ^ 32 →
  length (screen_buffer w) = Z.to_nat (var_xres w * var_yres w) →
  (Z.to_nat (var_xres w * var_yres w / 8) ≤ length (txbuf_buf w))%nat →
  Forall (λ px, px = 0 ∨ px = 1) (screen_buffer w) →
  ∃ out w',
    write_vmem offset len w = Some (hd 0 (faults w), w')
    ∧ wire w' = wire w ++ [Xfer Data out (hd 0 (faults w))]
    ∧ expand (var_xres w) (var_yres w) out = screen_buffer w.
Proof.
  intros Hx Hy Hy8 Hsz Hlen Htx Hbits.
  pose proof (readable_of_length _ _ _ Hx Hy Hy8 Hsz Hlen) as Hrd.
  destruct (write_vmem_run offset len w Hx Hy Hy8 Hsz Hrd Htx)
    as (t' & Hrun & Hlen' & Hlk).
  assert (Hyres : var_yres w = 8 * (var_yres w / 8)) by (apply Z.div_exact; lia).
  assert (Hn : var_xres w * var_yres w / 8 = var_xres w * (var_yres w / 8)).
  { rewrite Hyres at 1. rewrite (Z.mul_comm 8), Z.mul_assoc.
    apply Z.div_mul. lia. }
  eexists (take (Z.to_nat (var_xres w * var_yres w / 8)) t'), _.
  split; [exact Hrun|]. split; [reflexivity|].
  apply list_eq. intros n. unfold expand.
  rewrite list_lookup_fmap.
  destruct (decide (n < Z.to_nat (var_xres w * var_yres w))%nat) as [Hlt|Hge].
  2:{ rewrite lookup_seq_ge by lia. simpl. symmetry.
      apply lookup_ge_None. lia. }
  rewrite lookup_seq_lt by lia. cbn [fmap option_fmap option_map Nat.add].
  destruct (lookup_lt_is_Some_2 (screen_buffer w) n ltac:(lia)) as [px Hpx].
  rewrite Hpx. f_equal.
  set (k := Z.of_nat n).
  assert (Hk : 0 ≤ k < var_xres w * var_yres w) by lia.
  pose proof (Z.mod_pos_bound k (var_xres w) Hx) as Hxr.
  pose proof (Z.div_mod k (var_xres w) ltac:(lia)) as Hdm.
  assert (Hrow : 0 ≤ k / var_xres w < var_yres w).
  { split; [apply Z.div_pos; lia|]. apply Z.div_lt_upper_bound; lia. }
  pose proof (Z.mod_pos_bound (k / var_xres w) 8 ltac:(lia)) as Hir.
  pose proof (Z.div_mod (k / var_xres w) 8 ltac:(lia)) as Hdm8.
  assert (Hpg : 0 ≤ k / var_xres w / 8 < var_yres w / 8).
  { split; [apply Z.div_pos; lia|]. apply Z.div_lt_upper_bound; lia. }
  cbn zeta.
  rewrite lookup_take_lt by nia.
  rewrite Hlk by lia. cbn [default from_option id].
  rewrite page_byte_testbit by lia.
  rewrite (pixel_at_lookup _ _ (var_yres w)) by (assumption || lia).
  replace ((k / var_xres w / 8 * 8 + k / var_xres w mod 8) * var_xres w
           + k mod var_xres w) with k by lia.
  unfold k. rewrite Nat2Z.id, Hpx. cbn [default from_option id].
  rewrite Forall_lookup in Hbits.
  destruct (Hbits n px Hpx) as [-> | ->]; reflexivity.
Qed.

Lemma write_vmem_expand_roundtrip_witness :
  ∃ out w',
    write_vmem 0 0 (panel 8 16 0 0 (1 :: replicate 127 0) [])
    = Some (0, w')
    ∧ wire w' = [] ++ [Xfer Data out 0]
    ∧ expand 8 16 out = 1 :: replicate 127 0.
Proof.
  apply (write_vmem_expand_roundtrip 0 0
           (panel 8 16 0 0 (1 :: replicate 127 0) []));
    try (vm_compute; solve [reflexivity | discriminate]).
  apply Forall_cons; split; [now right|].
  apply Forall_replicate. now left.
Defined.

(** C2, counterexample.  Between the panels 128x64 and 128x32 the COM-pins
    argument (event 14 of the trace) is not the only byte that differs:
    the multiplex-ratio argument (event 5) is 63 for one and 31 for the
    other. *)
Lemma init_display_multiplex_argument_differs :
  ¬ (∀ i : nat, i ≠ 14%nat →
       bus_trace init_display (panel 128 64 0 0 [] []) !! i
       = bus_trace init_display (panel 128 32 0 0 [] []) !! i).
Proof.
  intros H. specialize (H 5%nat ltac:(lia)).
  vm_compute in H. discriminate H.
Qed.

(** C2, amended.  [init_display] pulses reset and then issues the commands
    of steps 2 to 16 in order, every command byte and argument byte as a
    command-phase transaction of its own.  The COM-pins argument is 0x12
    when the height is 64 or 48 and 0x02 otherwise; apart from it, the only
    byte that depends on the geometry is the multiplex-ratio argument,
    height - 1. *)
Theorem init_display_sequence w c :
  gamma_curves w !! 0%nat = Some c →
  ∃ w',
    init_display w = Some (0, w')
    ∧ wire w'
      = wire w ++ ResetPulse :: commands (init_sequence (var_yres w) (pdata_rotate w))
                             (faults w)
    ∧ init_sequence (var_yres w) (pdata_rotate w) !! 13%nat
      = Some (if decide (var_yres w = 64 ∨ var_yres w = 48) then 0x12 else 0x02)
    ∧ init_sequence (var_yres w) (pdata_rotate w) !! 4%nat
      = Some (u32 (var_yres w - 1))
    ∧ ∀ yres' (i : nat), i ≠ 4%nat → i ≠ 13%nat →
        init_sequence (var_yres w) (pdata_rotate w) !! i
        = init_sequence yres' (pdata_rotate w) !! i.
Proof.
  intros Hc. eexists. split; [apply (init_display_run w c Hc)|].
  split.
  { rewrite wire_after. unfold init_prepared.
    cbn [wire faults with_gamma_curves with_bus].
    now rewrite <- app_assoc. }
  split.
  { cbn [init_sequence lookup list_lookup]. f_equal.
    destruct (Z.eqb_spec (var_yres w) 64), (Z.eqb_spec (var_yres w) 48);
      cbn [orb]; case_decide; (reflexivity || lia). }
  split; [reflexivity|].
  intros yres' i H4 H13. unfold init_sequence.
  do 4 (destruct i as [|i]; [reflexivity|]).
  destruct i as [|i]; [lia|].
  do 8 (destruct i as [|i]; [reflexivity|]).
  destruct i as [|i]; [lia|].
  reflexivity.
Qed.

Lemma init_display_sequence_witness :
  ∃ w',
    init_display (panel 128 64 0 0 [] []) = Some (0, w')
    ∧ wire w' = [] ++ ResetPulse :: commands (init_sequence 64 0) []
    ∧ init_sequence 64 0 !! 13%nat
      = Some (if decide (64 = 64 ∨ 64 = 48) then 0x12 else 0x02)
    ∧ init_sequence 64 0 !! 4%nat = Some (u32 (64 - 1))
    ∧ ∀ yres' (i : nat), i ≠ 4%nat → i ≠ 13%nat →
        init_sequence 64 0 !! i = init_sequence yres' 0 !! i.
Proof.
  apply (init_display_sequence (panel 128 64 0 0 [] []) 0). reflexivity.
Defined.

(** C3.  For every geometry other than exactly 64x48, [set_addr_win] emits
    the column-range command with start 0 and end width-1, then the
    page-range command with start 0 and end height/8-1; for exactly 64x48
    it emits column range 32..95 and page range 0..5.  Neither depends on
    the pixel buffer or on the coordinates asked for. *)
Theorem set_addr_win_ranges xs ys xe ye w :
  0 < var_xres w < 2 ^ 32 → 0 < var_yres w < 2 ^ 32 →
  var_yres w mod 8 = 0 →
  ∃ w',
    set_addr_win xs ys xe ye w = Some (tt, w')
    ∧ wire w'
      = wire w
        ++ commands
             (if decide (var_xres w = 64 ∧ var_yres w = 48)
              then [0x21; 32; 95; 0x22; 0; 5]
              else [0x21; 0; var_xres w - 1; 0x22; 0; var_yres w / 8 - 1])
             (faults w).
Proof.
  intros Hx Hy Hy8. rewrite set_addr_win_dispatch.
  assert (Hyres : var_yres w = 8 * (var_yres w / 8)) by (apply Z.div_exact; lia).
  destruct (Z.eqb_spec (var_xres w) 64) as [Ex|Ex];
    destruct (Z.eqb_spec (var_yres w) 48) as [Ey|Ey]; cbn [andb];
    (case_decide as Hd; [try (exfalso; lia) | try (exfalso; apply Hd; split; assumption)]).
  1: { eexists. split; [apply set_addr_win_64x48_run|]. now rewrite wire_after. }
  all: eexists; (split; [apply set_addr_win_top_left_run|]);
    rewrite wire_after; unfold u32;
    rewrite !Z.mod_small by lia; reflexivity.
Qed.

Lemma set_addr_win_ranges_witness :
  ∃ w',
    set_addr_win 3 4 5 6 (panel 128 32 0 0 [] []) = Some (tt, w')
    ∧ wire w'
      = [] ++ commands
                (if decide (128 = 64 ∧ 32 = 48)
                 then [0x21; 32; 95; 0x22; 0; 5]
                 else [0x21; 0; 128 - 1; 0x22; 0; 32 / 8 - 1])
                [].
Proof.
  apply (set_addr_win_ranges 3 4 5 6 (panel 128 32 0 0 [] []));
    vm_compute; solve [reflexivity | split; reflexivity].
Defined.

(** C4.  If [curves[0]] is 0 when [init_display] is entered, it becomes
    0xCF for height 64 and 0x8F for any other height, and is nonzero from
    then on; if it is nonzero on entry, [init_display] leaves the array as
    it was. *)
Theorem init_display_lazy_contrast w c :
  gamma_curves w !! 0%nat = Some c →
  ∃ w',
    init_display w = Some (0, w')
    ∧ (c = 0 → var_yres w = 64 → gamma_curves w' !! 0%nat = Some 0xCF)
    ∧ (c = 0 → var_yres w ≠ 64 → gamma_curves w' !! 0%nat = Some 0x8F)
    ∧ (c = 0 → ∃ c', gamma_curves w' !! 0%nat = Some c' ∧ c' ≠ 0)
    ∧ (c ≠ 0 → gamma_curves w' = gamma_curves w).
Proof.
  intros Hc. eexists. split; [apply (init_display_run w c Hc)|].
  rewrite gamma_curves_after. unfold init_prepared, lazy_contrast.
  cbn [gamma_curves with_gamma_curves].
  pose proof (lookup_lt_Some _ _ _ Hc) as Hlen.
  repeat split.
  - intros -> ->. now apply list_lookup_insert_eq.
  - intros -> Hy. simpl. destruct (Z.eqb_spec (var_yres w) 64); [lia|].
    now apply list_lookup_insert_eq.
  - intros ->. simpl. eexists. split; [now apply list_lookup_insert_eq|].
    now destruct (var_yres w =? 64).
  - intros Hne. destruct (Z.eqb_spec c 0); [lia|].
    now apply list_insert_id.
Qed.

Lemma init_display_lazy_contrast_witness :
  ∃ w',
    init_display (panel 128 64 0 0 [] []) = Some (0, w')
    ∧ (0 = 0 → 64 = 64 → gamma_curves w' !! 0%nat = Some 0xCF)
    ∧ (0 = 0 → 64 ≠ 64 → gamma_curves w' !! 0%nat = Some 0x8F)
    ∧ (0 = 0 → ∃ c', gamma_curves w' !! 0%nat = Some c' ∧ c' ≠ 0)
    ∧ (0 ≠ 0 → gamma_curves w' = [0]).
Proof.
  apply (init_display_lazy_contrast (panel 128 64 0 0 [] []) 0). reflexivity.
Defined.

(** C5, counterexample.  A height of 30 is no multiple of 8, so 128x30 is
    outside the supported geometries; [set_addr_win] does not reject it
    but programs column range 0..127 and page range 0..2. *)
Lemma set_addr_win_accepts_unsupported_geometry :
  ∃ w',
    set_addr_win 0 0 127 29 (panel 128 30 0 0 [] []) = Some (tt, w')
    ∧ wire w' = map cmd [0x21; 0; 127; 0x22; 0; 2].
Proof. eexists. split; vm_compute; reflexivity. Qed.

(** C5, amended.  [set_addr_win] rejects no geometry: it has no error
    result and always issues its six command transactions.  Geometry
    exactly 64x48 selects the centred variant, every other geometry,
    supported or not, the top-left variant. *)
Theorem set_addr_win_never_rejects xs ys xe ye w :
  set_addr_win xs ys xe ye w
  = (if decide (var_xres w = 64 ∧ var_yres w = 48)
     then set_addr_win_64x48 w
     else set_addr_win_top_left w)
  ∧ ∃ w',
      set_addr_win xs ys xe ye w = Some (tt, w')
      ∧ length (wire w') = (length (wire w) + 6)%nat.
Proof.
  rewrite set_addr_win_dispatch. split.
  - destruct (Z.eqb_spec (var_xres w) 64), (Z.eqb_spec (var_yres w) 48);
      cbn [andb]; case_decide; (reflexivity || (exfalso; lia)).
  - destruct ((var_xres w =? 64) && (var_yres w =? 48)).
    + eexists. split; [apply set_addr_win_64x48_run|].
      now rewrite wire_after, length_app, commands_length.
    + eexists. split; [apply set_addr_win_top_left_run|].
      now rewrite wire_after, length_app, commands_length.
Qed.

(** C6, counterexample.  On a 128x64 panel whose first bus write fails
    with -5, [init_display] still issues all 23 transactions, returns 0,
    and the facade ends in state On. *)
Lemma init_display_ignores_bus_failure :
  ∃ w',
    init_display (panel 128 64 0 0 [] [-5]) = Some (0, w')
    ∧ wire w' !! 1%nat = Some (Xfer Command [0xAE] (-5))
    ∧ length (wire w') = 24%nat
    ∧ last (wire w') = Some (cmd 0xAF)
    ∧ facade_initialize Uninitialized (panel 128 64 0 0 [] [-5])
      = Some (0, On, w').
Proof.
  eexists. split; [vm_compute; reflexivity|].
  split; [|split; [|split]]; vm_compute; reflexivity.
Qed.

(** C6, amended.  [init_display] looks at the result of no bus write:
    whichever writes fail, it issues all 23 command transactions after the
    reset pulse and returns 0, so that the facade reports state On. *)
Theorem init_display_returns_zero w c :
  gamma_curves w !! 0%nat = Some c →
  ∃ w',
    init_display w = Some (0, w')
    ∧ length (wire w') = (length (wire w) + 24)%nat
    ∧ faults w' = drop 23 (faults w)
    ∧ ∀ d, facade_initialize d w = Some (0, On, w').
Proof.
  intros Hc. eexists. split; [apply (init_display_run w c Hc)|].
  split.
  { rewrite wire_after, length_app, commands_length. unfold init_prepared.
    cbn [wire with_gamma_curves with_bus init_sequence length].
    rewrite length_app. simpl. lia. }
  split; [now rewrite faults_after|].
  intros d. unfold facade_initialize. now rewrite (init_display_run w c Hc).
Qed.

Lemma init_display_returns_zero_witness :
  ∃ w',
    init_display (panel 128 64 0 0 [] [-5]) = Some (0, w')
    ∧ length (wire w') = (0 + 24)%nat
    ∧ faults w' = drop 23 [-5]
    ∧ ∀ d, facade_initialize d (panel 128 64 0 0 [] [-5]) = Some (0, On, w').
Proof.
  apply (init_display_returns_zero (panel 128 64 0 0 [] [-5]) 0). reflexivity.
Defined.

(** C8.  Whatever the level in [curves[0]], [set_gamma] masks it to its
    low 8 bits and issues exactly two command-phase transactions: the
    contrast-select byte 0x81, then the masked level. *)
Theorem set_gamma_sends_contrast curves w level :
  peek32 curves 0 w = Some level →
  ∃ w',
    set_gamma curves w = Some (0, w')
    ∧ wire w' = wire w ++ commands [0x81; Z.land level 0xFF] (faults w)
    ∧ Z.land level 0xFF = level mod 2 ^ 8.
Proof.
  intros H. destruct (set_gamma_run curves w level H) as (w1 & Hst & Hrun).
  destruct (store32_peek curves (Z.land level 0xFF) w level H)
    as (w1' & Hst' & _ & Hw & Hf).
  assert (w1' = w1) as -> by congruence.
  eexists. split; [exact Hrun|]. split.
  - now rewrite wire_after, Hw, Hf.
  - change 0xFF with (Z.ones 8). apply Z.land_ones. lia.
Qed.

Lemma set_gamma_sends_contrast_witness :
  ∃ w',
    set_gamma par_gamma_curves (panel 128 64 0 0x1CF [] []) = Some (0, w')
    ∧ wire w' = [] ++ commands [0x81; Z.land 0x1CF 0xFF] []
    ∧ Z.land 0x1CF 0xFF = 0x1CF mod 2 ^ 8.
Proof.
  apply (set_gamma_sends_contrast par_gamma_curves
           (panel 128 64 0 0x1CF [] []) 0x1CF).
  reflexivity.
Defined.

(** C9.  [blank(true)] sends exactly the Display-OFF byte 0xAE and
    [blank(false)] exactly the Display-ON byte 0xAF; blanking and then
    unblanking a display that is On issues Display-OFF, then Display-ON,
    and brings the state back to On. *)
Theorem blank_commands w :
  (∃ w', blank true w = Some (0, w')
         ∧ wire w' = wire w ++ commands [0xAE] (faults w))
  ∧ (∃ w', blank false w = Some (0, w')
           ∧ wire w' = wire w ++ commands [0xAF] (faults w))
  ∧ ∃ w1 w2,
      facade_set_blank true On w = Some (0, Blanked, w1)
      ∧ facade_set_blank false Blanked w1 = Some (0, On, w2)
      ∧ wire w2 = wire w ++ commands [0xAE; 0xAF] (faults w).
Proof.
  split; [|split].
  - eexists. split; [apply blank_run|]. now rewrite wire_after.
  - eexists. split; [apply blank_run|]. now rewrite wire_after.
  - eexists _, _. unfold facade_set_blank. rewrite !blank_run.
    split; [reflexivity|]. split; [reflexivity|].
    rewrite (after_commands_snoc [0xAE] 0xAF w). now rewrite wire_after.
Qed.

(** C10.  [set_gamma] changes the array it is handed in place: when it
    returns, [curves[0]] holds the level masked to its low 8 bits, a value
    below 256, and no longer the level it held before. *)
Theorem set_gamma_masks_in_place curves w level :
  peek32 curves 0 w = Some level →
  ∃ w',
    set_gamma curves w = Some (0, w')
    ∧ peek32 curves 0 w' = Some (Z.land level 0xFF)
    ∧ 0 ≤ Z.land level 0xFF < 256
    ∧ (curves = par_gamma_curves →
       gamma_curves w' !! 0%nat = Some (Z.land level 0xFF)).
Proof.
  intros H. destruct (set_gamma_run curves w level H) as (w1 & Hst & Hrun).
  destruct (store32_peek curves (Z.land level 0xFF) w level H)
    as (w1' & Hst' & Hpk & _).
  assert (w1' = w1) as -> by congruence.
  eexists. split; [exact Hrun|].
  assert (Hpk' : peek32 curves 0 (after_commands [0x81; Z.land level 0xFF] w1)
                 = Some (Z.land level 0xFF)) by now rewrite peek32_after.
  split; [exact Hpk'|]. split; [apply u8_range|].
  intros ->. unfold peek32, load32 in Hpk'.
  destruct (gamma_curves _ !! 0%nat); simpl in Hpk'; congruence.
Qed.

Lemma set_gamma_masks_in_place_witness :
  ∃ w',
    set_gamma (heap_array 7)
      (with_heap {[ 7%nat := [0x1CF] ]} (panel 128 64 0 0 [] []))
    = Some (0, w')
    ∧ peek32 (heap_array 7) 0 w' = Some (Z.land 0x1CF 0xFF)
    ∧ 0 ≤ Z.land 0x1CF 0xFF < 256
    ∧ (heap_array 7 = par_gamma_curves →
       gamma_curves w' !! 0%nat = Some (Z.land 0x1CF 0xFF)).
Proof.
  apply (set_gamma_masks_in_place (heap_array 7)
           (with_heap {[ 7%nat := [0x1CF] ]} (panel 128 64 0 0 [] [])) 0x1CF).
  vm_compute. reflexivity.
Defined.

(** ** Further properties of the frame packer *)

Lemma readable_of_length_ge vmem xres yres :
  0 ≤ xres → 0 ≤ yres → xres * yres < 2 ^ 32 →
  (Z.to_nat (xres * yres) ≤ length vmem)%nat →
  readable vmem xres yres.
Proof.
  intros Hx Hy Hsz Hlen x y i Hx' Hy' Hi.
  pose proof (Z.mul_div_le yres 8 ltac:(lia)) as Hle.
  apply lookup_lt_is_Some.
  unfold u32. rewrite Z.mod_small by nia. nia.
Qed.

Lemma packed_le_burst xres yres :
  0 ≤ xres → 0 ≤ yres → xres * (yres / 8) ≤ xres * yres / 8.
Proof.
  intros Hx Hy. apply Z.div_le_lower_bound; [lia|].
  pose proof (Z.mul_div_le yres 8 ltac:(lia)). nia.
Qed.

(** [write_vmem] for any geometry: the columns*pages packed bytes land at
    the head of the transmit buffer, the rest of it stays. *)
Lemma write_vmem_run_any offset len w :
  0 ≤ var_xres w → 0 ≤ var_yres w →
  var_xres w * var_yres w < 2 ^ 32 →
  readable (screen_buffer w) (var_xres w) (var_yres w) →
  (Z.to_nat (var_xres w * var_yres w / 8) ≤ length (txbuf_buf w))%nat →
  ∃ t',
    write_vmem offset len w
    = Some (hd 0 (faults w),
            after_burst t' (Z.to_nat (var_xres w * var_yres w / 8)) w)
    ∧ length t' = length (txbuf_buf w)
    ∧ ∀ j, t' !! j
           = if decide (0 ≤ j < 0 + Z.to_nat (var_xres w)
                                    * Z.to_nat (var_yres w / 8))%nat
             then Some (page_byte (screen_buffer w) (var_xres w)
                          (Z.of_nat ((j - 0) / Z.to_nat (var_yres w / 8)))
                          (Z.of_nat ((j - 0) mod Z.to_nat (var_yres w / 8))))
             else txbuf_buf w !! j.
Proof.
  intros Hx Hy Hsz Hrd Htx.
  set (xres := var_xres w) in *. set (yres := var_yres w) in *.
  pose proof (packed_le_burst xres yres Hx Hy) as Hle.
  assert (Hny : 0 ≤ yres / 8) by (apply Z.div_pos; lia).
  assert (Hfit : (0 + Z.to_nat xres * Z.to_nat (yres / 8)
                  ≤ length (txbuf_buf w))%nat).
  { rewrite <- Z2Nat.inj_mul by lia. lia. }
  destruct (pack_frame_fills w xres yres Hrd (txbuf_buf w) Hfit)
    as (t' & Hrun & Hlen & Hlk).
  rewrite with_txbuf_buf_id in Hrun.
  exists t'. split; [|split; [exact Hlen | exact Hlk]].
  unfold write_vmem. rewrite !gets_then. fold xres yres.
  rewrite (bind_Some _ _ _ _ _ Hrun).
  unfold gpio_set_value_dc.
  rewrite (bind_Some _ _ _ tt (with_gpio_dc 1 (with_txbuf_buf t' w)))
    by reflexivity.
  assert (Hu : u32 (xres * yres) / 8 = xres * yres / 8).
  { unfold u32. rewrite Z.mod_small; [reflexivity | nia]. }
  rewrite Hu.
  rewrite (bind_Some _ _ _ (hd 0 (faults w))
             (after_burst t' (Z.to_nat (xres * yres / 8)) w)).
  2:{ unfold fbtftops_write. rewrite gets_then.
      cbn [txbuf_buf with_gpio_dc with_txbuf_buf].
      destruct (decide (0 ≤ xres * yres / 8 ≤ Z.of_nat (length t'))) as [_|Hbad];
        [reflexivity|].
      exfalso. apply Hbad. rewrite Hlen.
      assert (0 ≤ xres * yres / 8) by (apply Z.div_pos; nia). lia. }
  unfold dev_err. now destruct (hd 0 (faults w) <? 0).
Qed.

Lemma or_bits_ext px px' n :
  ∀ i0 b,
    (∀ i, i0 ≤ i < i0 + Z.of_nat n → (px i =? 0) = (px' i =? 0)) →
    or_bits px n i0 b = or_bits px' n i0 b.
Proof.
  induction n as [|n IH]; intros i0 b H; [reflexivity|].
  cbn [or_bits]. rewrite (H i0) by lia. apply IH. intros i Hi. apply H. lia.
Qed.

Lemma page_byte_uniform vmem xres x y (dark : bool) :
  (∀ i, 0 ≤ i < 8 → (pixel_at vmem xres x y i =? 0) = dark) →
  page_byte vmem xres x y = if dark then 0 else 0xFF.
Proof.
  intros H. unfold page_byte.
  rewrite (or_bits_ext _ (λ _, if dark then 0 else 1) 8 0 0).
  - now destruct dark.
  - intros i Hi. rewrite H by lia. now destruct dark.
Qed.

Lemma page_byte_ext vmem vmem' xres x y :
  (∀ i, 0 ≤ i < 8 →
     (pixel_at vmem xres x y i =? 0) = (pixel_at vmem' xres x y i =? 0)) →
  page_byte vmem xres x y = page_byte vmem' xres x y.
Proof. intros H. unfold page_byte. apply or_bits_ext. intros i Hi. apply H. lia. Qed.

Lemma page_index_bounds (j nx ny : nat) :
  (j < nx * ny)%nat →
  0 ≤ Z.of_nat (j / ny) < Z.of_nat nx ∧ 0 ≤ Z.of_nat (j mod ny) < Z.of_nat ny.
Proof.
  intros Hj. assert (Hny : (0 < ny)%nat) by nia.
  pose proof (Nat.mod_upper_bound j ny ltac:(lia)).
  assert (j / ny < nx)%nat by (apply Nat.Div0.div_lt_upper_bound; lia).
  lia.
Qed.

(** X1.  Whatever the height, the burst of [write_vmem] is
    xres*yres/8 bytes long, but only xres*(yres/8) bytes are packed: when
    the height is no multiple of 8, the bytes of the burst from index
    xres*(yres/8) on are what the transmit buffer held before the call. *)
Theorem write_vmem_partial_page_stale offset len w :
  0 ≤ var_xres w → 0 ≤ var_yres w →
  var_xres w * var_yres w < 2 ^ 32 →
  (Z.to_nat (var_xres w * var_yres w) ≤ length (screen_buffer w))%nat →
  (Z.to_nat (var_xres w * var_yres w / 8) ≤ length (txbuf_buf w))%nat →
  ∃ out w',
    write_vmem offset len w = Some (hd 0 (faults w), w')
    ∧ wire w' = wire w ++ [Xfer Data out (hd 0 (faults w))]
    ∧ length out = Z.to_nat (var_xres w * var_yres w / 8)
    ∧ ∀ j : nat,
        (Z.to_nat (var_xres w * (var_yres w / 8)) ≤ j
         < Z.to_nat (var_xres w * var_yres w / 8))%nat →
        out !! j = txbuf_buf w !! j.
Proof.
  intros Hx Hy Hsz Hlen Htx.
  pose proof (readable_of_length_ge _ _ _ Hx Hy Hsz Hlen) as Hrd.
  destruct (write_vmem_run_any offset len w Hx Hy Hsz Hrd Htx)
    as (t' & Hrun & Hlen' & Hlk).
  eexists (take (Z.to_nat (var_xres w * var_yres w / 8)) t'), _.
  split; [exact Hrun|]. split; [reflexivity|].
  split; [rewrite length_take; lia|].
  intros j Hj. rewrite lookup_take_lt by lia. rewrite Hlk.
  assert (0 ≤ var_yres w / 8) by (apply Z.div_pos; lia).
  rewrite Z2Nat.inj_mul in Hj by lia.
  rewrite decide_False by lia. reflexivity.
Qed.

Lemma write_vmem_partial_page_stale_witness :
  ∃ out w',
    write_vmem 0 0 (panel 8 12 0 0 (replicate 96 1) []) = Some (0, w')
    ∧ wire w' = [] ++ [Xfer Data out 0]
    ∧ length out = Z.to_nat (8 * 12 / 8)
    ∧ ∀ j : nat,
        (Z.to_nat (8 * (12 / 8)) ≤ j < Z.to_nat (8 * 12 / 8))%nat →
        out !! j = replicate (Z.to_nat (8 * 12 / 8)) 0xEE !! j.
Proof.
  apply (write_vmem_partial_page_stale 0 0 (panel 8 12 0 0 (replicate 96 1) []));
    vm_compute; solve [reflexivity | discriminate].
Defined.

(** A 8x12 panel, all lit: eight packed bytes for the one full page of each
    column, then four bytes the transmit buffer happened to hold. *)
Example write_vmem_8x12_all_lit :
  bus_trace (write_vmem 0 0) (panel 8 12 0 0 (replicate 96 1) [])
  = [Xfer Data (replicate 8 0xFF ++ replicate 4 0xEE) 0].
Proof. vm_compute. reflexivity. Qed.

(** X2.  [write_vmem] only reads the pixel buffer and the geometry: it
    leaves them, the rotation, the gamma curves and the callers' arrays as
    they were, keeps the length of the transmit buffer and every byte of it
    from index xres*(yres/8) on, leaves the D/C line high and uses up one
    answer of the transport. *)
Theorem write_vmem_preserves offset len w :
  0 ≤ var_xres w → 0 ≤ var_yres w →
  var_xres w * var_yres w < 2 ^ 32 →
  (Z.to_nat (var_xres w * var_yres w) ≤ length (screen_buffer w))%nat →
  (Z.to_nat (var_xres w * var_yres w / 8) ≤ length (txbuf_buf w))%nat →
  ∃ w',
    write_vmem offset len w = Some (hd 0 (faults w), w')
    ∧ screen_buffer w' = screen_buffer w
    ∧ (var_xres w', var_yres w', pdata_rotate w')
      = (var_xres w, var_yres w, pdata_rotate w)
    ∧ gamma_curves w' = gamma_curves w
    ∧ heap w' = heap w
    ∧ length (txbuf_buf w') = length (txbuf_buf w)
    ∧ (∀ j : nat, (Z.to_nat (var_xres w * (var_yres w / 8)) ≤ j)%nat →
         txbuf_buf w' !! j = txbuf_buf w !! j)
    ∧ gpio_dc w' = 1
    ∧ faults w' = tl (faults w).
Proof.
  intros Hx Hy Hsz Hlen Htx.
  pose proof (readable_of_length_ge _ _ _ Hx Hy Hsz Hlen) as Hrd.
  destruct (write_vmem_run_any offset len w Hx Hy Hsz Hrd Htx)
    as (t' & Hrun & Hlen' & Hlk).
  eexists. split; [exact Hrun|].
  unfold after_burst.
  cbn [screen_buffer var_xres var_yres pdata_rotate gamma_curves heap
       txbuf_buf gpio_dc faults with_bus with_gpio_dc with_txbuf_buf].
  repeat (split; [reflexivity|]).
  split; [exact Hlen'|]. split; [|split; reflexivity].
  intros j Hj. rewrite Hlk.
  assert (0 ≤ var_yres w / 8) by (apply Z.div_pos; lia).
  rewrite Z2Nat.inj_mul in Hj by lia.
  rewrite decide_False by lia. reflexivity.
Qed.

Lemma write_vmem_preserves_witness :
  ∃ w',
    write_vmem 0 0 (panel 8 12 0 0 (replicate 96 1) [-5; 0]) = Some (-5, w')
    ∧ screen_buffer w' = replicate 96 1
    ∧ (var_xres w', var_yres w', pdata_rotate w') = (8, 12, 0)
    ∧ gamma_curves w' = [0]
    ∧ heap w' = ∅
    ∧ length (txbuf_buf w') = length (replicate (Z.to_nat (8 * 12 / 8)) 0xEE)
    ∧ (∀ j : nat, (Z.to_nat (8 * (12 / 8)) ≤ j)%nat →
         txbuf_buf w' !! j = replicate (Z.to_nat (8 * 12 / 8)) 0xEE !! j)
    ∧ gpio_dc w' = 1
    ∧ faults w' = tl [-5; 0].
Proof.
  apply (write_vmem_preserves 0 0 (panel 8 12 0 0 (replicate 96 1) [-5; 0]));
    vm_compute; solve [reflexivity | discriminate].
Defined.

Lemma pixel_at_zero_test vmem xres yres x y i (dark : bool) :
  readable vmem xres yres →
  Forall (λ px, (px =? 0) = dark) vmem →
  0 ≤ x < xres → 0 ≤ y < yres / 8 → 0 ≤ i < 8 →
  (pixel_at vmem xres x y i =? 0) = dark.
Proof.
  intros Hrd Hall Hx Hy Hi. unfold pixel_at.
  destruct (Hrd x y i Hx Hy Hi) as [px Hpx]. rewrite Hpx.
  rewrite Forall_lookup in Hall. exact (Hall _ _ Hpx).
Qed.

(** X3.  A pixel buffer that is dark throughout is packed into a burst of
    zero bytes, and one that is lit throughout, whatever the nonzero
    values of its samples, into a burst of 0xFF bytes. *)
Theorem write_vmem_uniform offset len w (dark : bool) :
  0 < var_xres w → 0 < var_yres w → var_yres w mod 8 = 0 →
  var_xres w * var_yres w < 2 ^ 32 →
  length (screen_buffer w) = Z.to_nat (var_xres w * var_yres w) →
  (Z.to_nat (var_xres w * var_yres w / 8) ≤ length (txbuf_buf w))%nat →
  Forall (λ px, (px =? 0) = dark) (screen_buffer w) →
  ∃ w',
    write_vmem offset len w = Some (hd 0 (faults w), w')
    ∧ wire w'
      = wire w
        ++ [Xfer Data
              (replicate (Z.to_nat (var_xres w * var_yres w / 8))
                 (if dark then 0 else 0xFF))
              (hd 0 (faults w))].
Proof.
  intros Hx Hy Hy8 Hsz Hlen Htx Hall.
  pose proof (readable_of_length _ _ _ Hx Hy Hy8 Hsz Hlen) as Hrd.
  destruct (write_vmem_run_any offset len w ltac:(lia) ltac:(lia) Hsz Hrd Htx)
    as (t' & Hrun & Hlen' & Hlk).
  assert (Hyres : var_yres w = 8 * (var_yres w / 8)) by (apply Z.div_exact; lia).
  assert (Hn : var_xres w * var_yres w / 8 = var_xres w * (var_yres w / 8)).
  { rewrite Hyres at 1. rewrite (Z.mul_comm 8), Z.mul_assoc.
    apply Z.div_mul. lia. }
  assert (Hnn : Z.to_nat (var_xres w * var_yres w / 8)
                = (Z.to_nat (var_xres w) * Z.to_nat (var_yres w / 8))%nat)
    by (rewrite Hn; apply Z2Nat.inj_mul; lia).
  eexists. split; [exact Hrun|]. unfold after_burst. cbn [wire with_bus].
  do 3 f_equal. apply list_eq. intros j.
  destruct (decide (j < Z.to_nat (var_xres w * var_yres w / 8))%nat) as [Hj|Hj].
  - rewrite lookup_take_lt by exact Hj. rewrite Hlk.
    rewrite decide_True by lia. rewrite Nat.sub_0_r.
    rewrite lookup_replicate_2 by exact Hj. f_equal.
    rewrite Hnn in Hj.
    destruct (page_index_bounds _ _ _ Hj) as [Hxb Hyb].
    apply page_byte_uniform. intros i Hi.
    apply (pixel_at_zero_test _ _ (var_yres w)); auto; lia.
  - rewrite lookup_take_ge by lia. symmetry.
    apply lookup_replicate_None. lia.
Qed.

Lemma write_vmem_uniform_witness :
  ∃ w',
    write_vmem 0 0 (panel 8 16 0 0 (replicate 128 0x7FFF) []) = Some (0, w')
    ∧ wire w'
      = [] ++ [Xfer Data (replicate (Z.to_nat (8 * 16 / 8))
                            (if false then 0 else 0xFF)) 0].
Proof.
  apply (write_vmem_uniform 0 0 (panel 8 16 0 0 (replicate 128 0x7FFF) []) false);
    try (vm_compute; solve [reflexivity | discriminate]).
  apply Forall_replicate. reflexivity.
Defined.

Lemma zero_test_lookup (v1 v2 : list Z) (k : nat) :
  (λ px, px =? 0) <$> v1 = (λ px, px =? 0) <$> v2 →
  (default 0 (v1 !! k) =? 0) = (default 0 (v2 !! k) =? 0).
Proof.
  intros H.
  assert (Hk : ((λ px, px =? 0) <$> v1) !! k = ((λ px, px =? 0) <$> v2) !! k)
    by now rewrite H.
  rewrite !list_lookup_fmap in Hk.
  destruct (v1 !! k), (v2 !! k); simpl in *; congruence.
Qed.

(** X4.  The packer reads nothing but whether a sample is zero: two pixel
    buffers with the same pattern of zero and nonzero samples give the
    same burst. *)
Theorem write_vmem_truthiness_only offset len w vmem' :
  0 ≤ var_xres w → 0 ≤ var_yres w →
  var_xres w * var_yres w < 2 ^ 32 →
  (Z.to_nat (var_xres w * var_yres w) ≤ length (screen_buffer w))%nat →
  (Z.to_nat (var_xres w * var_yres w / 8) ≤ length (txbuf_buf w))%nat →
  (λ px, px =? 0) <$> screen_buffer w = (λ px, px =? 0) <$> vmem' →
  ∃ out w1 w2,
    write_vmem offset len w = Some (hd 0 (faults w), w1)
    ∧ write_vmem offset len (with_screen_buffer vmem' w)
      = Some (hd 0 (faults w), w2)
    ∧ wire w1 = wire w ++ [Xfer Data out (hd 0 (faults w))]
    ∧ wire w2 = wire w ++ [Xfer Data out (hd 0 (faults w))].
Proof.
  intros Hx Hy Hsz Hlen Htx Hsame.
  pose proof (readable_of_length_ge _ _ _ Hx Hy Hsz Hlen) as Hrd.
  assert (Hlen2 : length vmem' = length (screen_buffer w)).
  { apply (f_equal length) in Hsame. rewrite !length_fmap in Hsame. lia. }
  set (w' := with_screen_buffer vmem' w).
  assert (Hrd2 : readable (screen_buffer w') (var_xres w') (var_yres w')).
  { apply readable_of_length_ge; auto. cbn [w' screen_buffer with_screen_buffer
      var_xres var_yres]. lia. }
  destruct (write_vmem_run_any offset len w Hx Hy Hsz Hrd Htx)
    as (t1 & Hrun1 & Hlen1 & Hlk1).
  destruct (write_vmem_run_any offset len w' Hx Hy Hsz Hrd2 Htx)
    as (t2 & Hrun2 & Hlen2' & Hlk2).
  assert (Ht : t2 = t1).
  { apply list_eq. intros j. rewrite Hlk1, Hlk2.
    cbn [w' var_xres var_yres screen_buffer txbuf_buf with_screen_buffer].
    destruct (decide _) as [Hj|Hj]; [|reflexivity].
    f_equal. apply page_byte_ext. intros i Hi. unfold pixel_at.
    symmetry. now apply zero_test_lookup. }
  subst t2.
  eexists _, _, _. split; [exact Hrun1|]. split; [exact Hrun2|].
  split; reflexivity.
Qed.

Lemma write_vmem_truthiness_only_witness :
  ∃ out w1 w2,
    write_vmem 0 0 (panel 8 8 0 0 (1 :: replicate 63 0) []) = Some (0, w1)
    ∧ write_vmem 0 0
        (with_screen_buffer (0xF800 :: replicate 63 0)
           (panel 8 8 0 0 (1 :: replicate 63 0) []))
      = Some (0, w2)
    ∧ wire w1 = [] ++ [Xfer Data out 0]
    ∧ wire w2 = [] ++ [Xfer Data out 0].
Proof.
  apply (write_vmem_truthiness_only 0 0 (panel 8 8 0 0 (1 :: replicate 63 0) [])
           (0xF800 :: replicate 63 0));
    vm_compute; solve [reflexivity | discriminate].
Defined.

Lemma pack_page_overruns w xres x y buf :
  overruns w (pack_page xres x y buf) buf 1.
Proof.
  intros t Ht. unfold pack_page, bind, store8. cbn [txbuf_buf with_txbuf_buf].
  destruct (decide (buf < length t)%nat); [lia | reflexivity].
Qed.

Lemma overruns_for_loop w (body : Z → nat → M nat) m (g : Z → nat → Z) n :
  ∀ k0 buf,
    (∀ k buf', k0 ≤ k < k0 + Z.of_nat n → fills w (body k buf') buf' m (g k)) →
    (∀ k buf', k0 ≤ k < k0 + Z.of_nat n → overruns w (body k buf') buf' m) →
    overruns w (for_loop n k0 body buf) buf (n * m).
Proof.
  induction n as [|n IH]; intros k0 buf Hfill Hover t Ht; [simpl in Ht; lia|].
  cbn [for_loop].
  destruct (decide (length t < buf + m)%nat) as [Hshort|Hfits].
  - unfold bind. now rewrite (Hover k0 buf ltac:(lia) t ltac:(lia)).
  - destruct (Hfill k0 buf ltac:(lia) t ltac:(lia)) as (t1 & Hrun1 & Hlen1 & _).
    rewrite (bind_Some _ _ _ _ _ Hrun1).
    apply (IH (k0 + 1) (buf + m)%nat).
    + intros k b Hk. apply Hfill. lia.
    + intros k b Hk. apply Hover. lia.
    + simpl in Ht. lia.
Qed.

Lemma pack_column_overruns w xres yres x buf :
  readable (screen_buffer w) xres yres → 0 ≤ x < xres →
  overruns w (pack_column xres yres x buf) buf (Z.to_nat (yres / 8)).
Proof.
  intros Hrd Hx. unfold pack_column.
  pose proof (overruns_for_loop w (pack_page xres x) 1
                (λ y _, page_byte (screen_buffer w) xres x y)
                (Z.to_nat (yres / 8)) 0 buf) as H.
  rewrite Nat.mul_1_r in H. apply H.
  - intros y buf' Hy. apply pack_page_fills. intros i Hi. apply Hrd; lia.
  - intros y buf' Hy. apply pack_page_overruns.
Qed.

(** X5.  [write_vmem] does not check the size of the transmit buffer: with
    a buffer shorter than the xres*(yres/8) bytes it packs, it stores past
    the end of the buffer, which is outside defined behaviour. *)
Theorem write_vmem_overruns_short_txbuf offset len w :
  0 ≤ var_xres w → 0 ≤ var_yres w →
  var_xres w * var_yres w < 2 ^ 32 →
  (Z.to_nat (var_xres w * var_yres w) ≤ length (screen_buffer w))%nat →
  (length (txbuf_buf w) < Z.to_nat (var_xres w * (var_yres w / 8)))%nat →
  write_vmem offset len w = None.
Proof.
  intros Hx Hy Hsz Hlen Htx.
  pose proof (readable_of_length_ge _ _ _ Hx Hy Hsz Hlen) as Hrd.
  assert (0 ≤ var_yres w / 8) by (apply Z.div_pos; lia).
  rewrite Z2Nat.inj_mul in Htx by lia.
  pose proof (overruns_for_loop w (pack_column (var_xres w) (var_yres w))
                (Z.to_nat (var_yres w / 8))
                (λ x r, page_byte (screen_buffer w) (var_xres w) x (Z.of_nat r))
                (Z.to_nat (var_xres w)) 0 O) as Hover.
  assert (Hnone : for_loop (Z.to_nat (var_xres w)) 0
                    (pack_column (var_xres w) (var_yres w)) O w = None).
  { rewrite <- (Hover
        (λ x buf' Hx', pack_column_fills w _ _ x buf' Hrd ltac:(lia))
        (λ x buf' Hx', pack_column_overruns w _ _ x buf' Hrd ltac:(lia))
        (txbuf_buf w) ltac:(lia)).
    now rewrite with_txbuf_buf_id. }
  unfold write_vmem. rewrite !gets_then. unfold bind at 1.
  now rewrite Hnone.
Qed.

Lemma write_vmem_overruns_short_txbuf_witness :
  write_vmem 0 0
    (with_txbuf_buf [0; 0; 0] (panel 8 16 0 0 (replicate 128 1) []))
  = None.
Proof.
  apply (write_vmem_overruns_short_txbuf 0 0
           (with_txbuf_buf [0; 0; 0] (panel 8 16 0 0 (replicate 128 1) [])));
    vm_compute; solve [reflexivity | discriminate | lia].
Defined.

(** ** Further properties of the command paths *)

Lemma screen_buffer_after vs w :
  screen_buffer (after_commands vs w) = screen_buffer w.
Proof. now destruct vs. Qed.

Lemma txbuf_buf_after vs w : txbuf_buf (after_commands vs w) = txbuf_buf w.
Proof. now destruct vs. Qed.

Lemma gpio_dc_after vs w : vs ≠ [] → gpio_dc (after_commands vs w) = 0.
Proof. now destruct vs. Qed.

Lemma after_commands_app vs1 vs2 w :
  after_commands vs2 (after_commands vs1 w) = after_commands (vs1 ++ vs2) w.
Proof.
  revert vs1. induction vs2 as [|v vs2 IH] using rev_ind; intros vs1.
  - now rewrite app_nil_r.
  - rewrite <- after_commands_snoc, IH, after_commands_snoc.
    now rewrite app_assoc.
Qed.

Lemma window_sequence_length xres yres :
  length (window_sequence xres yres) = 6%nat.
Proof. unfold window_sequence. now destruct (_ && _). Qed.

Lemma set_addr_win_run xs ys xe ye w :
  set_addr_win xs ys xe ye w
  = Some (tt, after_commands (window_sequence (var_xres w) (var_yres w)) w).
Proof.
  rewrite set_addr_win_dispatch. unfold window_sequence.
  destruct (_ && _);
    [apply set_addr_win_64x48_run | apply set_addr_win_top_left_run].
Qed.

(** X6.  [set_addr_win] is a function of the geometry alone and leaves the
    geometry alone: called twice in a row, with whatever coordinates, it
    sends the same six values both times, and it changes no memory of the
    driver. *)
Theorem set_addr_win_twice xs ys xe ye xs' ys' xe' ye' w :
  ∃ w2,
    (set_addr_win xs ys xe ye ;; set_addr_win xs' ys' xe' ye') w
    = Some (tt, w2)
    ∧ wire w2
      = wire w
        ++ commands (window_sequence (var_xres w) (var_yres w)
                     ++ window_sequence (var_xres w) (var_yres w)) (faults w)
    ∧ length (window_sequence (var_xres w) (var_yres w)) = 6%nat
    ∧ (var_xres w2, var_yres w2, pdata_rotate w2)
      = (var_xres w, var_yres w, pdata_rotate w)
    ∧ (gamma_curves w2, screen_buffer w2, txbuf_buf w2, heap w2)
      = (gamma_curves w, screen_buffer w, txbuf_buf w, heap w).
Proof.
  eexists. split.
  { rewrite (bind_Some _ _ _ _ _ (set_addr_win_run xs ys xe ye w)).
    rewrite set_addr_win_run, var_xres_after, var_yres_after.
    now rewrite after_commands_app. }
  rewrite wire_after, var_xres_after, var_yres_after, pdata_rotate_after,
    gamma_curves_after, screen_buffer_after, txbuf_buf_after, heap_after.
  split; [reflexivity|]. split; [apply window_sequence_length|].
  split; reflexivity.
Qed.

Lemma write_vmem_run_packs offset len w :
  0 < var_xres w → 0 < var_yres w → var_yres w mod 8 = 0 →
  var_xres w * var_yres w < 2 ^ 32 →
  length (screen_buffer w) = Z.to_nat (var_xres w * var_yres w) →
  (Z.to_nat (var_xres w * var_yres w / 8) ≤ length (txbuf_buf w))%nat →
  ∃ t',
    write_vmem offset len w
    = Some (hd 0 (faults w),
            after_burst t' (Z.to_nat (var_xres w * var_yres w / 8)) w)
    ∧ packs (screen_buffer w) (var_xres w) (var_yres w)
        (take (Z.to_nat (var_xres w * var_yres w / 8)) t').
Proof.
  intros Hx Hy Hy8 Hsz Hlen Htx.
  pose proof (readable_of_length _ _ _ Hx Hy Hy8 Hsz Hlen) as Hrd.
  destruct (write_vmem_run offset len w Hx Hy Hy8 Hsz Hrd Htx)
    as (t' & Hrun & Hlen' & Hlk).
  assert (Hyres : var_yres w = 8 * (var_yres w / 8)) by (apply Z.div_exact; lia).
  assert (Hn : var_xres w * var_yres w / 8 = var_xres w * (var_yres w / 8)).
  { rewrite Hyres at 1. rewrite (Z.mul_comm 8), Z.mul_assoc.
    apply Z.div_mul. lia. }
  exists t'. split; [exact Hrun|]. split.
  { rewrite length_take, Hlen'.
    assert (0 ≤ var_xres w * var_yres w / 8) by (apply Z.div_pos; lia). lia. }
  intros x y i Hx' Hy' Hi.
  destruct (Hrd x y i Hx' Hy' Hi) as [px Hpx].
  unfold u32 in Hpx. rewrite Z.mod_small in Hpx by nia.
  exists (page_byte (screen_buffer w) (var_xres w) x y), px.
  split; [rewrite lookup_take_lt by nia; now apply Hlk|].
  split; [exact Hpx|].
  rewrite page_byte_testbit by exact Hi.
  rewrite (pixel_at_lookup _ _ (var_yres w)) by assumption.
  now rewrite Hpx.
Qed.

(** X7.  One display update, [set_addr_win] followed by [write_vmem]:
    the six window values go out as command-phase transactions, whatever
    the D/C line was before, and after them the packed frame as a single
    data-phase burst; [write_vmem] returns the transport's answer to that
    burst. *)
Theorem update_cycle xs ys xe ye offset len w :
  0 < var_xres w → 0 < var_yres w → var_yres w mod 8 = 0 →
  var_xres w * var_yres w < 2 ^ 32 →
  length (screen_buffer w) = Z.to_nat (var_xres w * var_yres w) →
  (Z.to_nat (var_xres w * var_yres w / 8) ≤ length (txbuf_buf w))%nat →
  ∃ out w',
    (set_addr_win xs ys xe ye ;; write_vmem offset len) w
    = Some (hd 0 (drop 6 (faults w)), w')
    ∧ wire w'
      = wire w
        ++ commands (window_sequence (var_xres w) (var_yres w)) (faults w)
        ++ [Xfer Data out (hd 0 (drop 6 (faults w)))]
    ∧ packs (screen_buffer w) (var_xres w) (var_yres w) out.
Proof.
  intros Hx Hy Hy8 Hsz Hlen Htx.
  set (w1 := after_commands (window_sequence (var_xres w) (var_yres w)) w).
  destruct (write_vmem_run_packs offset len w1) as (t' & Hrun & Hpk);
    unfold w1;
    rewrite ?var_xres_after, ?var_yres_after, ?screen_buffer_after,
      ?txbuf_buf_after; auto.
  fold w1 in Hrun.
  rewrite (bind_Some _ _ _ _ _ (set_addr_win_run xs ys xe ye w)). fold w1.
  assert (Hf : faults w1 = drop 6 (faults w)).
  { unfold w1. now rewrite faults_after, window_sequence_length. }
  rewrite Hf in Hrun.
  assert (Hg : (var_xres w1, var_yres w1, screen_buffer w1)
               = (var_xres w, var_yres w, screen_buffer w)).
  { unfold w1. now rewrite var_xres_after, var_yres_after, screen_buffer_after. }
  injection Hg as Hg1 Hg2 Hg3. rewrite Hg1, Hg2, Hg3 in Hpk.
  rewrite Hg1, Hg2 in Hrun.
  eexists _, _. split; [exact Hrun|]. split; [|exact Hpk].
  unfold after_burst. cbn [wire with_bus]. rewrite Hf.
  unfold w1. now rewrite wire_after, <- app_assoc.
Qed.

Lemma update_cycle_witness :
  ∃ out w',
    (set_addr_win 0 0 7 15 ;; write_vmem 0 0)
      (panel 8 16 0 0 (1 :: replicate 127 0) [0; 0; 0; 0; 0; 0; -5])
    = Some (hd 0 (drop 6 [0; 0; 0; 0; 0; 0; -5]), w')
    ∧ wire w'
      = [] ++ commands (window_sequence 8 16) [0; 0; 0; 0; 0; 0; -5]
           ++ [Xfer Data out (hd 0 (drop 6 [0; 0; 0; 0; 0; 0; -5]))]
    ∧ packs (1 :: replicate 127 0) 8 16 out.
Proof.
  apply (update_cycle 0 0 7 15 0 0
           (panel 8 16 0 0 (1 :: replicate 127 0) [0; 0; 0; 0; 0; 0; -5]));
    vm_compute; solve [reflexivity | discriminate].
Defined.

Lemma peek32_unfold q i w :
  peek32 q i w
  = match q with
    | par_gamma_curves => gamma_curves w !! i
    | heap_array l => heap w !! l ≫= (.!! i)
    end.
Proof.
  unfold peek32, load32. destruct q.
  - now destruct (gamma_curves w !! i).
  - destruct (heap w !! l) as [a|]; simpl; [|reflexivity].
    now destruct (a !! i).
Qed.

Lemma store32_poke p v w c :
  peek32 p 0 w = Some c → store32 p 0 v w = Some (tt, poke32 p 0 v w).
Proof.
  rewrite peek32_unfold. unfold store32, poke32. destruct p.
  - intros H. apply lookup_lt_Some in H.
    destruct (decide (0 < length (gamma_curves w))%nat); [reflexivity | lia].
  - destruct (heap w !! l) as [a|]; simpl; [|congruence].
    intros H. apply lookup_lt_Some in H.
    destruct (decide (0 < length a)%nat); [reflexivity | lia].
Qed.

Lemma peek32_poke_same p v w c :
  peek32 p 0 w = Some c → peek32 p 0 (poke32 p 0 v w) = Some v.
Proof.
  rewrite !peek32_unfold. unfold poke32. destruct p.
  - intros H. apply lookup_lt_Some in H.
    cbn [gamma_curves with_gamma_curves]. now apply list_lookup_insert_eq.
  - destruct (heap w !! l) as [a|] eqn:E; simpl; [|congruence].
    intros H. apply lookup_lt_Some in H.
    rewrite lookup_insert_eq. simpl. now apply list_lookup_insert_eq.
Qed.

Lemma peek32_poke_other p v w q i :
  (q, i) ≠ (p, 0%nat) → peek32 q i (poke32 p 0 v w) = peek32 q i w.
Proof.
  intros Hne. rewrite !peek32_unfold. unfold poke32.
  destruct p as [|l], q as [|l']; cbn [gamma_curves heap with_gamma_curves with_heap];
    try reflexivity.
  - apply list_lookup_insert_ne. intros <-. now apply Hne.
  - destruct (decide (l = l')) as [<-|Hl].
    + rewrite lookup_insert_eq. simpl.
      destruct (heap w !! l) as [a|]; simpl.
      * apply list_lookup_insert_ne. intros <-. now apply Hne.
      * now destruct i.
    + now rewrite lookup_insert_ne.
Qed.

Lemma set_gamma_run_poke curves w level :
  peek32 curves 0 w = Some level →
  set_gamma curves w
  = Some (0, after_commands [0x81; Z.land level 0xFF]
               (poke32 curves 0 (Z.land level 0xFF) w)).
Proof.
  intros H. destruct (set_gamma_run curves w level H) as (w1 & Hst & Hrun).
  rewrite (store32_poke _ _ _ _ H) in Hst. now injection Hst as <-.
Qed.

Lemma lazy_contrast_nonzero yres c : lazy_contrast yres c ≠ 0.
Proof.
  unfold lazy_contrast. destruct (Z.eqb_spec c 0); [|assumption].
  now destruct (yres =? 64).
Qed.

Lemma lazy_contrast_fixed yres c : c ≠ 0 → lazy_contrast yres c = c.
Proof. unfold lazy_contrast. now destruct (Z.eqb_spec c 0). Qed.

(** X8.  The contrast default is settled by the first [init_display]:
    after it [curves[0]] is nonzero, and a second [init_display] leaves the
    gamma curves as the first left them and sends the same sequence
    again. *)
Theorem init_display_twice w c :
  gamma_curves w !! 0%nat = Some c →
  ∃ w1 w2,
    init_display w = Some (0, w1)
    ∧ init_display w1 = Some (0, w2)
    ∧ (∃ c1, gamma_curves w1 !! 0%nat = Some c1 ∧ c1 ≠ 0)
    ∧ gamma_curves w2 = gamma_curves w1
    ∧ wire w2
      = wire w1
        ++ ResetPulse
           :: commands (init_sequence (var_yres w) (pdata_rotate w)) (faults w1).
Proof.
  intros Hc. pose proof (lookup_lt_Some _ _ _ Hc) as Hlen.
  set (c1 := lazy_contrast (var_yres w) c).
  set (w1 := after_commands (init_sequence (var_yres w) (pdata_rotate w))
               (init_prepared w c)).
  assert (Hg1 : gamma_curves w1 = <[0%nat := c1]> (gamma_curves w))
    by (unfold w1; now rewrite gamma_curves_after).
  assert (Hc1 : gamma_curves w1 !! 0%nat = Some c1)
    by (rewrite Hg1; now apply list_lookup_insert_eq).
  assert (Hy1 : var_yres w1 = var_yres w)
    by (unfold w1; now rewrite var_yres_after).
  assert (Hr1 : pdata_rotate w1 = pdata_rotate w)
    by (unfold w1; now rewrite pdata_rotate_after).
  eexists w1, _. split; [apply (init_display_run w c Hc)|].
  split; [apply (init_display_run w1 c1 Hc1)|].
  split; [exists c1; split; [exact Hc1 | apply lazy_contrast_nonzero]|].
  rewrite gamma_curves_after, wire_after, Hy1, Hr1. unfold init_prepared.
  cbn [gamma_curves wire faults with_gamma_curves with_bus].
  split.
  - rewrite Hy1, lazy_contrast_fixed by apply lazy_contrast_nonzero.
    now apply list_insert_id.
  - now rewrite <- app_assoc.
Qed.

Lemma init_display_twice_witness :
  ∃ w1 w2,
    init_display (panel 128 64 0 0 [] []) = Some (0, w1)
    ∧ init_display w1 = Some (0, w2)
    ∧ (∃ c1, gamma_curves w1 !! 0%nat = Some c1 ∧ c1 ≠ 0)
    ∧ gamma_curves w2 = gamma_curves w1
    ∧ wire w2
      = wire w1 ++ ResetPulse :: commands (init_sequence 64 0) (faults w1).
Proof.
  apply (init_display_twice (panel 128 64 0 0 [] []) 0). reflexivity.
Defined.

(** X9.  The default contrast reaches the controller unchanged: when
    [curves[0]] is 0, [init_display] followed by [set_gamma] on
    [par->gamma.curves] sends, after the init sequence, 0x81 and then 0xCF
    for height 64 and 0x8F for any other height, and that value stays in
    [curves[0]]. *)
Theorem init_display_then_set_gamma w :
  gamma_curves w !! 0%nat = Some 0 →
  ∃ w2,
    (init_display ;; set_gamma par_gamma_curves) w = Some (0, w2)
    ∧ wire w2
      = wire w
        ++ ResetPulse
           :: commands (init_sequence (var_yres w) (pdata_rotate w)
                        ++ [0x81; if var_yres w =? 64 then 0xCF else 0x8F])
                (faults w)
    ∧ gamma_curves w2 !! 0%nat
      = Some (if var_yres w =? 64 then 0xCF else 0x8F).
Proof.
  intros Hc. pose proof (lookup_lt_Some _ _ _ Hc) as Hlen.
  set (d := if var_yres w =? 64 then 0xCF else 0x8F).
  assert (Hd : Z.land d 0xFF = d) by (unfold d; now destruct (var_yres w =? 64)).
  set (w1 := after_commands (init_sequence (var_yres w) (pdata_rotate w))
               (init_prepared w 0)).
  assert (Hg1 : gamma_curves w1 = <[0%nat := d]> (gamma_curves w))
    by (unfold w1; now rewrite gamma_curves_after).
  assert (Hp1 : peek32 par_gamma_curves 0 w1 = Some d).
  { rewrite peek32_unfold, Hg1. now apply list_lookup_insert_eq. }
  eexists. split.
  { rewrite (bind_Some _ _ _ _ _ (init_display_run w 0 Hc)). fold w1.
    apply (set_gamma_run_poke _ _ _ Hp1). }
  rewrite Hd. split.
  - rewrite wire_after. unfold poke32. cbn [wire faults with_gamma_curves].
    unfold w1. rewrite wire_after, faults_after. unfold init_prepared.
    cbn [wire faults with_gamma_curves with_bus].
    rewrite commands_app, <- !app_assoc. reflexivity.
  - rewrite gamma_curves_after.
    pose proof (peek32_poke_same par_gamma_curves d w1 d Hp1) as H.
    now rewrite peek32_unfold in H.
Qed.

Lemma init_display_then_set_gamma_witness :
  ∃ w2,
    (init_display ;; set_gamma par_gamma_curves) (panel 128 32 0 0 [] [])
    = Some (0, w2)
    ∧ wire w2
      = [] ++ ResetPulse
           :: commands (init_sequence 32 0
                        ++ [0x81; if 32 =? 64 then 0xCF else 0x8F]) []
    ∧ gamma_curves w2 !! 0%nat = Some (if 32 =? 64 then 0xCF else 0x8F).
Proof.
  apply (init_display_then_set_gamma (panel 128 32 0 0 [] [])). reflexivity.
Defined.

(** X10.  Masking is idempotent: a second [set_gamma] on the same array
    finds the level already masked, leaves it as it is and sends the same
    two values as the first call. *)
Theorem set_gamma_twice curves w level :
  peek32 curves 0 w = Some level →
  ∃ w1 w2,
    set_gamma curves w = Some (0, w1)
    ∧ set_gamma curves w1 = Some (0, w2)
    ∧ peek32 curves 0 w2 = peek32 curves 0 w1
    ∧ wire w2 = wire w ++ commands [0x81; Z.land level 0xFF;
                                    0x81; Z.land level 0xFF] (faults w).
Proof.
  intros H. set (m := Z.land level 0xFF).
  assert (Hm : Z.land m 0xFF = m).
  { unfold m. rewrite <- Z.land_assoc. reflexivity. }
  set (w1 := after_commands [0x81; m] (poke32 curves 0 m w)).
  assert (Hp1 : peek32 curves 0 w1 = Some m).
  { unfold w1. rewrite peek32_after. apply (peek32_poke_same _ _ _ _ H). }
  exists w1. eexists. split; [apply (set_gamma_run_poke _ _ _ H)|].
  split; [apply (set_gamma_run_poke _ _ _ Hp1)|].
  rewrite Hm. split.
  - rewrite peek32_after, Hp1. apply (peek32_poke_same _ _ _ _ Hp1).
  - rewrite wire_after.
    assert (Hw : ∀ p v u, wire (poke32 p 0 v u) = wire u
                          ∧ faults (poke32 p 0 v u) = faults u)
      by (intros [|?] ? ?; split; reflexivity).
    destruct (Hw curves m w1) as [-> ->].
    unfold w1. rewrite wire_after, faults_after.
    destruct (Hw curves m w) as [-> ->].
    rewrite <- app_assoc. f_equal.
    now rewrite (commands_app [0x81; m] [0x81; m]).
Qed.

Lemma set_gamma_twice_witness :
  ∃ w1 w2,
    set_gamma par_gamma_curves (panel 128 64 0 0x1CF [] []) = Some (0, w1)
    ∧ set_gamma par_gamma_curves w1 = Some (0, w2)
    ∧ peek32 par_gamma_curves 0 w2 = peek32 par_gamma_curves 0 w1
    ∧ wire w2 = [] ++ commands [0x81; Z.land 0x1CF 0xFF;
                                0x81; Z.land 0x1CF 0xFF] [].
Proof.
  apply (set_gamma_twice par_gamma_curves (panel 128 64 0 0x1CF [] []) 0x1CF).
  reflexivity.
Defined.

(** X11.  [set_gamma] writes one cell only, element 0 of the array it is
    handed: every other element of that array, every other array (the
    curves in [par] when the caller passed an array of its own, and the
    other way round), the pixel buffer and the transmit buffer are as
    before. *)
Theorem set_gamma_touches_one_cell curves w level :
  peek32 curves 0 w = Some level →
  ∃ w',
    set_gamma curves w = Some (0, w')
    ∧ (∀ q i, (q, i) ≠ (curves, 0%nat) → peek32 q i w' = peek32 q i w)
    ∧ (screen_buffer w', txbuf_buf w') = (screen_buffer w, txbuf_buf w)
    ∧ (var_xres w', var_yres w', pdata_rotate w')
      = (var_xres w, var_yres w, pdata_rotate w).
Proof.
  intros H. eexists. split; [apply (set_gamma_run_poke _ _ _ H)|].
  split.
  - intros q i Hne. rewrite peek32_after. now apply peek32_poke_other.
  - rewrite screen_buffer_after, txbuf_buf_after, var_xres_after,
      var_yres_after, pdata_rotate_after.
    destruct curves; split; reflexivity.
Qed.

Lemma set_gamma_touches_one_cell_witness :
  ∃ w',
    set_gamma (heap_array 7)
      (with_heap {[ 7%nat := [0x1CF; 0x222] ]} (panel 128 64 0 0x333 [] []))
    = Some (0, w')
    ∧ (∀ q i, (q, i) ≠ (heap_array 7, 0%nat) →
         peek32 q i w'
         = peek32 q i (with_heap {[ 7%nat := [0x1CF; 0x222] ]}
                         (panel 128 64 0 0x333 [] [])))
    ∧ (screen_buffer w', txbuf_buf w')
      = ([], replicate (Z.to_nat (128 * 64 / 8)) 0xEE)
    ∧ (var_xres w', var_yres w', pdata_rotate w') = (128, 64, 0).
Proof.
  apply (set_gamma_touches_one_cell (heap_array 7)
           (with_heap {[ 7%nat := [0x1CF; 0x222] ]}
              (panel 128 64 0 0x333 [] [])) 0x1CF).
  vm_compute. reflexivity.
Defined.

(** X12.  [init_display] touches no memory but [curves[0]]: the other
    gamma values, the callers' arrays, the pixel buffer, the transmit
    buffer and the geometry are as before; the D/C line is left low and 23
    answers of the transport are used up. *)
Theorem init_display_preserves w c :
  gamma_curves w !! 0%nat = Some c →
  ∃ w',
    init_display w = Some (0, w')
    ∧ (∀ q i, (q, i) ≠ (par_gamma_curves, 0%nat) →
         peek32 q i w' = peek32 q i w)
    ∧ length (gamma_curves w') = length (gamma_curves w)
    ∧ (screen_buffer w', txbuf_buf w') = (screen_buffer w, txbuf_buf w)
    ∧ (var_xres w', var_yres w', pdata_rotate w')
      = (var_xres w, var_yres w, pdata_rotate w)
    ∧ gpio_dc w' = 0
    ∧ faults w' = drop 23 (faults w).
Proof.
  intros Hc. eexists. split; [apply (init_display_run w c Hc)|].
  split.
  { intros q i Hne. rewrite peek32_after.
    change (init_prepared w c)
      with (poke32 par_gamma_curves 0 (lazy_contrast (var_yres w) c)
              (with_bus (wire w ++ [ResetPulse]) (faults w) w)).
    rewrite peek32_poke_other by exact Hne.
    rewrite !peek32_unfold. now destruct q. }
  rewrite gamma_curves_after, screen_buffer_after, txbuf_buf_after,
    var_xres_after, var_yres_after, pdata_rotate_after, faults_after.
  rewrite gpio_dc_after by discriminate.
  unfold init_prepared.
  cbn [gamma_curves screen_buffer txbuf_buf var_xres var_yres pdata_rotate
       faults with_gamma_curves with_bus].
  split; [apply length_insert|]. repeat split.
Qed.

Lemma init_display_preserves_witness :
  ∃ w',
    init_display (panel 128 64 0 0 [] []) = Some (0, w')
    ∧ (∀ q i, (q, i) ≠ (par_gamma_curves, 0%nat) →
         peek32 q i w' = peek32 q i (panel 128 64 0 0 [] []))
    ∧ length (gamma_curves w') = length [0]
    ∧ (screen_buffer w', txbuf_buf w')
      = ([], replicate (Z.to_nat (128 * 64 / 8)) 0xEE)
    ∧ (var_xres w', var_yres w', pdata_rotate w') = (128, 64, 0)
    ∧ gpio_dc w' = 0
    ∧ faults w' = drop 23 [].
Proof.
  apply (init_display_preserves (panel 128 64 0 0 [] []) 0). reflexivity.
Defined.

(** ** Reading past the pixel buffer *)

Lemma keeps_pixels_bind {A B} (c : M A) (k : A → M B) :
  keeps_pixels c → (∀ a, keeps_pixels (k a)) → keeps_pixels (bind c k).
Proof.
  intros Hc Hk w b w' H. unfold bind in H.
  destruct (c w) as [[a w1]|] eqn:E; [|discriminate].
  rewrite (Hk a _ _ _ H). exact (Hc _ _ _ E).
Qed.

Lemma keeps_pixels_ret {A} (a : A) : keeps_pixels (ret a).
Proof. intros w b w' H. unfold ret in H. now injection H as _ <-. Qed.

Lemma keeps_pixels_store8 buf v : keeps_pixels (store8 buf v).
Proof.
  intros w b w' H. unfold store8 in H.
  destruct (decide _); [|discriminate]. now injection H as _ <-.
Qed.

Lemma keeps_pixels_load8 buf : keeps_pixels (load8 buf).
Proof.
  intros w b w' H. unfold load8 in H.
  destruct (txbuf_buf w !! buf); [|discriminate]. now injection H as _ <-.
Qed.

Lemma keeps_pixels_load16 i : keeps_pixels (load16 i).
Proof.
  intros w b w' H. unfold load16 in H.
  destruct (screen_buffer w !! Z.to_nat i); [|discriminate].
  now injection H as _ <-.
Qed.

Lemma keeps_pixels_for_loop {A} (body : Z → A → M A) n :
  (∀ k a, keeps_pixels (body k a)) → ∀ k0 a, keeps_pixels (for_loop n k0 body a).
Proof.
  intros Hb. induction n as [|n IH]; intros k0 a; cbn [for_loop].
  - apply keeps_pixels_ret.
  - apply keeps_pixels_bind; [apply Hb | intros a'; apply IH].
Qed.

Lemma keeps_pixels_or_pixel_bit xres x y buf i :
  keeps_pixels (or_pixel_bit xres x y buf i).
Proof.
  unfold or_pixel_bit.
  apply keeps_pixels_bind; [apply keeps_pixels_load16|]. intros px.
  apply keeps_pixels_bind; [apply keeps_pixels_load8|]. intros b.
  apply keeps_pixels_store8.
Qed.

Lemma keeps_pixels_pack_page xres x y buf : keeps_pixels (pack_page xres x y buf).
Proof.
  unfold pack_page.
  apply keeps_pixels_bind; [apply keeps_pixels_store8|]. intros _.
  apply keeps_pixels_bind.
  - apply keeps_pixels_for_loop. intros. apply keeps_pixels_or_pixel_bit.
  - intros _. apply keeps_pixels_ret.
Qed.

Lemma keeps_pixels_pack_column xres yres x buf :
  keeps_pixels (pack_column xres yres x buf).
Proof.
  unfold pack_column. apply keeps_pixels_for_loop.
  intros. apply keeps_pixels_pack_page.
Qed.

(** A loop one of whose rounds cannot get through does not get through. *)
Lemma for_loop_fails {A} (vmem : list Z) (body : Z → A → M A) kbad n :
  (∀ k a, keeps_pixels (body k a)) →
  (∀ a w, screen_buffer w = vmem → body kbad a w = None) →
  ∀ k0 a w,
    k0 ≤ kbad < k0 + Z.of_nat n → screen_buffer w = vmem →
    for_loop n k0 body a w = None.
Proof.
  intros Hkeep Hbad. induction n as [|n IH]; intros k0 a w Hk Hw; [lia|].
  cbn [for_loop]. unfold bind.
  destruct (decide (kbad = k0)) as [->|Hne]; [now rewrite Hbad|].
  destruct (body k0 a w) as [[a' w']|] eqn:E; [|reflexivity].
  apply IH; [lia|]. rewrite (Hkeep _ _ _ _ _ E). exact Hw.
Qed.

(** X13.  [write_vmem] does not check the size of the pixel buffer
    either: it reads xres*8*(yres/8) samples, and with fewer samples
    behind [screen_buffer] it reads past the end of the buffer, which is
    outside defined behaviour. *)
Theorem write_vmem_reads_past_short_pixels offset len w :
  0 < var_xres w → 8 ≤ var_yres w →
  var_xres w * var_yres w < 2 ^ 32 →
  (length (screen_buffer w)
   < Z.to_nat (var_xres w * (8 * (var_yres w / 8))))%nat →
  write_vmem offset len w = None.
Proof.
  intros Hx Hy Hsz Hlen.
  set (xres := var_xres w) in *. set (yres := var_yres w) in *.
  set (vmem := screen_buffer w) in *.
  pose proof (Z.mul_div_le yres 8 ltac:(lia)) as Hle.
  assert (Hny : 1 ≤ yres / 8) by (apply Z.div_le_lower_bound; lia).
  assert (Hbit : ∀ buf w0, screen_buffer w0 = vmem →
            or_pixel_bit xres (xres - 1) (yres / 8 - 1) buf 7 w0 = None).
  { intros buf w0 Hw0. unfold or_pixel_bit, bind, load16. rewrite Hw0.
    rewrite (lookup_ge_None_2 vmem); [reflexivity|].
    unfold u32. rewrite Z.mod_small by nia. nia. }
  assert (Hpage : ∀ buf w0, screen_buffer w0 = vmem →
            pack_page xres (xres - 1) (yres / 8 - 1) buf w0 = None).
  { intros buf w0 Hw0. unfold pack_page. unfold bind at 1.
    destruct (store8 buf 0 w0) as [[[] w1]|] eqn:E; [|reflexivity].
    unfold bind at 1.
    rewrite (for_loop_fails vmem
               (λ i _, or_pixel_bit xres (xres - 1) (yres / 8 - 1) buf i) 7 8);
      [reflexivity| | |lia|].
    - intros. apply keeps_pixels_or_pixel_bit.
    - intros a w2 Hw2. now apply Hbit.
    - rewrite (keeps_pixels_store8 _ _ _ _ _ E). exact Hw0. }
  assert (Hcol : ∀ buf w0, screen_buffer w0 = vmem →
            pack_column xres yres (xres - 1) buf w0 = None).
  { intros buf w0 Hw0. unfold pack_column.
    apply (for_loop_fails vmem (pack_page xres (xres - 1)) (yres / 8 - 1));
      [intros; apply keeps_pixels_pack_page | exact Hpage | lia | exact Hw0]. }
  unfold write_vmem. rewrite !gets_then. fold xres yres. unfold bind at 1.
  rewrite (for_loop_fails vmem (pack_column xres yres) (xres - 1));
    [reflexivity | intros; apply keeps_pixels_pack_column | exact Hcol | lia
    | reflexivity].
Qed.

Lemma write_vmem_reads_past_short_pixels_witness :
  write_vmem 0 0 (panel 8 16 0 0 (replicate 127 1) []) = None.
Proof.
  apply (write_vmem_reads_past_short_pixels 0 0
           (panel 8 16 0 0 (replicate 127 1) []));
    vm_compute; solve [reflexivity | discriminate | lia].
Defined.
